(** * Hamster Wheel Literal Matcher: build code (src/hwlm/hwlm_build.cpp)

    A shallow embedding of [isNoodleable], [hwlmBuild], [hwlmSize] and
    [hwlmFloodProneSuffixLen], and the properties of the build stage:
    engine selection, the resource guard, packaging, the size round trip
    and the flood heuristic.

    Unsigned machine integers ([u8], [u32], [u64a], [size_t]) are values
    of [N]; arithmetic the code performs in 64 bits is reduced with
    [wrap64].  Exceptions, failed assertions and calls to the engine
    builders are explicit: a computation returns the trace of the
    external calls it made together with its outcome.

    The code is read in both of its builds.  With assertions compiled in
    a failed [assert] ends the call ([Abort]); with [NDEBUG] the
    assertions vanish and the code runs on.  The theorems hold for both
    builds; where the build without assertions would run past a
    condition the other build asserts, the theorem takes that condition
    as a hypothesis. *)

From Stdlib Require Import NArith List String Bool Lia.
From Stdlib.Strings Require Import Byte.
Import ListNotations.
Open Scope N_scope.

Notation "x >? y" := (N.ltb y x) (at level 70, no associativity) : N_scope.

(** ** Machine arithmetic *)

Definition wrap64 (x : N) : N := x mod 2 ^ 64.

(** Modelled from the spec: [ROUNDUP_N] and [ROUNDUP_CL] are macros of
    ue2common.h, which is not part of the sources at hand; the spec calls
    the result the cache-line-rounded (aligned) header size, and the
    cache line is the 64 bytes [hwlmBuild] passes as alignment.  The
    rounding is the usual mask form [(a + (n-1)) & ~(n-1)] on [size_t]. *)
Definition ROUNDUP_N (a n : N) : N :=
  N.land (wrap64 (a + (n - 1))) (N.lnot (n - 1) 64).

Definition ROUNDUP_CL (a : N) : N := ROUNDUP_N a 64.

(** ** Data model *)

(** [struct hwlmLiteral]: the fields this file reads, and [cmp], the
    companion of [msk]. *)
Record hwlmLiteral := mk_hwlmLiteral {
  lit_s : string;          (* std::string s *)
  lit_id : N;              (* u32 id *)
  lit_nocase : bool;
  lit_groups : N;          (* hwlm_group_t groups *)
  lit_msk : list byte;     (* std::vector<u8> msk *)
  lit_cmp : list byte      (* std::vector<u8> cmp *)
}.

(** [lit.s.length()] *)
Definition s_length (lit : hwlmLiteral) : N := N.of_nat (String.length (lit_s lit)).

(** [struct Grey]: the switches and limits read here. *)
Record Grey := mk_Grey {
  allowNoodle : bool;
  fdrAllowTeddy : bool;
  limitLiteralCount : N;         (* u32 *)
  limitLiteralLength : N;        (* u32 *)
  limitLiteralMatcherChars : N;  (* u32 *)
  limitLiteralMatcherSize : N    (* u32 *)
}.

Record target_t := mk_target { has_avx2 : bool }.

Record CompileContext := mk_cc {
  grey : Grey;
  target_info : target_t
}.

(** [bytecode_ptr<T>]: an owning pointer to a flat object that knows the
    number of bytes it was allocated with; [None] is [nullptr]. *)
Record bytecode (T : Type) := mk_bytecode {
  bc_get : T;
  bc_size : N
}.
Arguments mk_bytecode {T} _ _.
Arguments bc_get {T} _.
Arguments bc_size {T} _.

Definition bytecode_ptr (T : Type) : Type := option (bytecode T).

(** [struct HWLM] followed by its engine: the tag of the header and the
    region [HWLM_DATA(h)] that starts [ROUNDUP_CL(sizeof(HWLM))] bytes
    into the blob. *)
Record HWLM := mk_HWLM {
  type : N;                (* u8 type *)
  HWLM_DATA : list byte
}.

(** ** Outcomes, traces and the build monad *)

Inductive error :=
| ResourceLimitError
| CompileError (reason : string).

(** How a call ends: it returns, it throws, or an [assert] fails (only
    when assertions are compiled in). *)
Inductive outcome (A : Type) :=
| Ok (a : A)
| Throw (e : error)
| Abort.
Arguments Ok {A} _.
Arguments Throw {A} _.
Arguments Abort {A}.

(** What a build call does to the outside: calls to the two engine
    builders and the allocation of the blob. *)
Inductive event :=
| EvNoodBuildTable (lit : hwlmLiteral)
| EvFdrBuildTable (lits : list hwlmLiteral) (make_small : bool)
                  (target : target_t) (g : Grey)
| EvAlloc (bytes align : N).

Definition is_builder_call (e : event) : bool :=
  match e with
  | EvNoodBuildTable _ | EvFdrBuildTable _ _ _ _ => true
  | EvAlloc _ _ => false
  end.

Definition is_alloc (e : event) : bool :=
  match e with
  | EvAlloc _ _ => true
  | _ => false
  end.

Definition builder_calls (t : list event) : list event := filter is_builder_call t.
Definition allocations (t : list event) : list event := filter is_alloc t.

Definition M (A : Type) : Type := (list event * outcome A)%type.

Definition ret {A} (a : A) : M A := ([], Ok a).

Definition bind {A B} (m : M A) (f : A -> M B) : M B :=
  match m with
  | (t, Ok a) => let (t', r) := f a in (t ++ t', r)
  | (t, Throw e) => (t, Throw e)
  | (t, Abort) => (t, Abort)
  end.

Definition throw {A} (e : error) : M A := ([], Throw e).

(** An external call: the event is recorded, the callee's outcome is
    propagated unchanged. *)
Definition call {A} (e : event) (r : outcome A) : M A := ([e], r).

Definition when (c : bool) (m : M unit) : M unit := if c then m else ret tt.

Declare Scope build_scope.
Delimit Scope build_scope with build.
Notation "x <- m ;; k" := (bind m (fun x => k))
  (at level 61, m at next level, right associativity) : build_scope.
Notation "m ;; k" := (bind m (fun _ => k))
  (at level 61, right associativity) : build_scope.
Open Scope build_scope.

(** [for (const auto &lit : lits) body], the loop state threaded through. *)
Fixpoint for_each {S : Type} (body : S -> hwlmLiteral -> M S) (st : S)
         (lits : list hwlmLiteral) : M S :=
  match lits with
  | [] => ret st
  | lit :: rest => st' <- body st lit ;; for_each body st' rest
  end.

(** ** External collaborators

    The constants of hwlm_internal.h and the two engines (noodle_build,
    fdr_compile) are not part of the sources at hand: they are
    parameters of the development. *)
Record Externals := mk_Externals {
  sizeof_HWLM : N;                 (* sizeof(HWLM) *)
  HWLM_ENGINE_NOOD : N;            (* u8 tag *)
  HWLM_ENGINE_FDR : N;             (* u8 tag *)
  noodBuildTable : hwlmLiteral -> outcome (bytecode_ptr (list byte));
  fdrBuildTable : list hwlmLiteral -> bool -> target_t -> Grey ->
                  outcome (bytecode_ptr (list byte));
  noodSize : list byte -> N;       (* size_t noodSize(const noodTable * ) *)
  fdrSize : list byte -> N         (* size_t fdrSize(const FDR * ) *)
}.

(** ** The code *)

(** [everyoneHasGroups], called by an assertion. *)
Fixpoint everyoneHasGroups (lits : list hwlmLiteral) : bool :=
  match lits with
  | [] => true
  | lit :: rest => if lit_groups lit =? 0 then false else everyoneHasGroups rest
  end.

(** [lits.front()]; undefined on an empty vector. *)
Definition front (lits : list hwlmLiteral) : option hwlmLiteral := hd_error lits.

Definition isNoodleable (lits : list hwlmLiteral) (cc : CompileContext) : bool :=
  if negb (allowNoodle (grey cc)) then false
  else if negb (N.of_nat (List.length lits) =? 1) then false
  else match front lits with
       | Some lit => match lit_msk lit with
                     | [] => true
                     | _ :: _ => false
                     end
       | None => false
       end.

Section Build.

Variable E : Externals.

(** [NDEBUG]: [true] when assertions are compiled out. *)
Variable NDEBUG : bool.

(** [assert(c)] *)
Definition assert (c : bool) : M unit :=
  if NDEBUG then ret tt else if c then ret tt else ([], Abort).

(** The body of the safety and resource limit loop; the state is
    [total_chars] (a [u64a]). *)
Definition check_literal (cc : CompileContext) (total_chars : N)
           (lit : hwlmLiteral) : M N :=
  assert (negb (s_length lit =? 0)) ;;
  when (s_length lit >? limitLiteralLength (grey cc))
       (throw ResourceLimitError) ;;
  let total_chars := wrap64 (total_chars + s_length lit) in
  when (total_chars >? limitLiteralMatcherChars (grey cc))
       (throw ResourceLimitError) ;;
  when (lit_id lit =? 0xffffffff)
       (assert false ;; throw (CompileError "Internal error.")) ;;
  ret total_chars.

(** Lines 103-138: everything [hwlmBuild] does before it chooses an
    engine. *)
Definition hwlmBuild_checks (lits : list hwlmLiteral) (cc : CompileContext)
  : M unit :=
  assert (negb (N.of_nat (List.length lits) =? 0)) ;;
  when (N.of_nat (List.length lits) >? limitLiteralCount (grey cc))
       (throw ResourceLimitError) ;;
  _ <- for_each (check_literal cc) 0 lits ;;
  assert (everyoneHasGroups lits).

(** Lines 132-157: the choice of the engine and the call of its
    builder; the result is [(engType, engSize, eng)]. *)
Definition hwlmBuild_engine (lits : list hwlmLiteral) (make_small : bool)
           (cc : CompileContext) : M (N * N * bytecode_ptr (list byte)) :=
  if isNoodleable lits cc then
    match front lits with
    | Some lit =>
        noodle <- call (EvNoodBuildTable lit) (noodBuildTable E lit) ;;
        let engSize := match noodle with Some b => bc_size b | None => 0 end in
        ret (HWLM_ENGINE_NOOD E, engSize, noodle)
    | None => ([], Abort)   (* not reached: isNoodleable saw one literal *)
    end
  else
    fdr <- call (EvFdrBuildTable lits make_small (target_info cc) (grey cc))
                (fdrBuildTable E lits make_small (target_info cc) (grey cc)) ;;
    let engSize := match fdr with Some b => bc_size b | None => 0 end in
    ret (HWLM_ENGINE_FDR E, engSize, fdr).

(** [make_bytecode_ptr<HWLM>(bytes, align)] *)
Definition make_bytecode_ptr (bytes align : N) : M N :=
  call (EvAlloc bytes align) (Ok bytes).

(** [memcpy(dest, src, n)] into a fresh region. *)
Definition memcpy (src : list byte) (n : N) : list byte := firstn (N.to_nat n) src.

(** Lines 159-173: the packaging of the engine into the blob. *)
Definition hwlmBuild_package (cc : CompileContext)
           (engType engSize : N) (eng : bytecode_ptr (list byte))
  : M (bytecode_ptr HWLM) :=
  match eng with
  | None => ret None
  | Some e =>
      assert (negb (engSize =? 0)) ;;
      when (engSize >? limitLiteralMatcherSize (grey cc))
           (throw ResourceLimitError) ;;
      bytes <- make_bytecode_ptr (wrap64 (ROUNDUP_CL (sizeof_HWLM E) + engSize)) 64 ;;
      ret (Some (mk_bytecode
                   (mk_HWLM engType (memcpy (bc_get e) engSize))
                   bytes))
  end.

Definition hwlmBuild (lits : list hwlmLiteral) (make_small : bool)
           (cc : CompileContext) (expected_groups : N)
  : M (bytecode_ptr HWLM) :=
  hwlmBuild_checks lits cc ;;
  r <- hwlmBuild_engine lits make_small cc ;;
  let '(engType, engSize, eng) := r in
  hwlmBuild_package cc engType engSize eng.

(** The [switch] of [hwlmSize]: the size the engine named by the tag
    reports for the payload, [0] when no case matches. *)
Definition hwlmSize_engSize (h : HWLM) : N :=
  if type h =? HWLM_ENGINE_NOOD E then noodSize E (HWLM_DATA h)
  else if type h =? HWLM_ENGINE_FDR E then fdrSize E (HWLM_DATA h)
  else 0.

Definition hwlmSize (h : HWLM) : N :=
  let engSize := hwlmSize_engSize h in
  if engSize =? 0 then 0
  else wrap64 (engSize + ROUNDUP_CL (sizeof_HWLM E)).

End Build.

(** [~(size_t)0] *)
Definition NO_LIMIT : N := N.lnot 0 64.

Definition hwlmFloodProneSuffixLen (numLiterals : N) (cc : CompileContext) : N :=
  if allowNoodle (grey cc) && (numLiterals <=? 1) then NO_LIMIT
  else if fdrAllowTeddy (grey cc) then
    if numLiterals <=? 48 then 3
    else if has_avx2 (target_info cc) && (numLiterals <=? 96) then 3
    else 3
  else 3.

(** ** Well-formed configurations and collaborators *)

(** The limits of [Grey] are [u32] values. *)
Definition wf_Grey (g : Grey) : Prop :=
  limitLiteralCount g < 2 ^ 32 /\ limitLiteralLength g < 2 ^ 32 /\
  limitLiteralMatcherChars g < 2 ^ 32 /\ limitLiteralMatcherSize g < 2 ^ 32.

(** The two engine tags are different [case] labels and the header is a
    small struct. *)
Definition wf_Externals (E : Externals) : Prop :=
  HWLM_ENGINE_NOOD E <> HWLM_ENGINE_FDR E /\ sizeof_HWLM E < 2 ^ 32.

(** Each engine's size function, applied to the payload as it lies in
    the blob, reports the size its builder reported. *)
Definition sizes_agree (E : Externals) : Prop :=
  (forall lit e, noodBuildTable E lit = Ok (Some e) ->
                 noodSize E (memcpy (bc_get e) (bc_size e)) = bc_size e) /\
  (forall lits make_small t g e,
      fdrBuildTable E lits make_small t g = Ok (Some e) ->
      fdrSize E (memcpy (bc_get e) (bc_size e)) = bc_size e).

(** What the assertions on the batch state: no empty pattern, no zero
    group mask. *)
Definition valid_literal (lit : hwlmLiteral) : Prop :=
  s_length lit <> 0 /\ lit_groups lit <> 0.

(** The sum of the pattern lengths, as a number. *)
Fixpoint sum_lengths (lits : list hwlmLiteral) : N :=
  match lits with
  | [] => 0
  | lit :: rest => s_length lit + sum_lengths rest
  end.

(** The failures the spec files under an internal invariant violation:
    the compile error of the reserved id, and a failed assertion. *)
Definition internal_violation {A} (r : outcome A) : Prop :=
  match r with
  | Throw (CompileError _) | Abort => True
  | _ => False
  end.

(** ** Concrete batches, configurations and collaborators *)

Definition lit_abc : hwlmLiteral := mk_hwlmLiteral "abc" 0 false 1 [] [].
Definition lit_xyz : hwlmLiteral := mk_hwlmLiteral "xyz" 1 false 1 [] [].
Definition lit_masked : hwlmLiteral := mk_hwlmLiteral "abc" 2 false 1 [xff] [x61].
Definition lit_long : hwlmLiteral := mk_hwlmLiteral "abcdefghijk" 3 false 1 [] [].
Definition lit_reserved : hwlmLiteral := mk_hwlmLiteral "a" 0xffffffff false 1 [] [].

(** Generous limits, both switches on, no AVX2. *)
Definition grey_demo : Grey := mk_Grey true true 8 10 100 1000.
Definition cc_demo : CompileContext := mk_cc grey_demo (mk_target false).

(** At most one literal. *)
Definition cc_one : CompileContext :=
  mk_cc (mk_Grey true true 1 10 100 1000) (mk_target false).

(** An aggregate budget of five characters. *)
Definition cc_five : CompileContext :=
  mk_cc (mk_Grey true true 8 10 5 1000) (mk_target false).

(** A compiled-size ceiling of sixteen bytes. *)
Definition cc_small : CompileContext :=
  mk_cc (mk_Grey true true 8 10 100 16) (mk_target false).

(** Engines that build a 32-byte noodle table and a 128-byte FDR table
    and report the size of what they are shown. *)
Definition ext_demo : Externals :=
  mk_Externals 48 16 12
    (fun _ => Ok (Some (mk_bytecode (repeat x00 32) 32)))
    (fun _ _ _ _ => Ok (Some (mk_bytecode (repeat x01 128) 128)))
    (fun d => N.of_nat (List.length d))
    (fun d => N.of_nat (List.length d)).

(** Engines that find nothing to build. *)
Definition ext_empty : Externals :=
  mk_Externals 48 16 12
    (fun _ => Ok None)
    (fun _ _ _ _ => Ok None)
    (fun d => N.of_nat (List.length d))
    (fun d => N.of_nat (List.length d)).

(** Engines that return a table of zero bytes. *)
Definition ext_zero : Externals :=
  mk_Externals 48 16 12
    (fun _ => Ok (Some (mk_bytecode [] 0)))
    (fun _ _ _ _ => Ok (Some (mk_bytecode [] 0)))
    (fun d => N.of_nat (List.length d))
    (fun d => N.of_nat (List.length d)).

(** Engines whose size functions report a size no object can have. *)
Definition ext_huge : Externals :=
  mk_Externals 48 16 12
    (fun _ => Ok None)
    (fun _ _ _ _ => Ok None)
    (fun _ => 2 ^ 64 - 1)
    (fun _ => 2 ^ 64 - 1).

(** Literals that break what the assertions state, and engines that
    fail. *)
Definition lit_nogroups : hwlmLiteral := mk_hwlmLiteral "abc" 4 false 0 [] [].
Definition lit_nopattern : hwlmLiteral := mk_hwlmLiteral "" 5 false 1 [] [].

Definition ext_throw : Externals :=
  mk_Externals 48 16 12
    (fun _ => Throw (CompileError "noodle"))
    (fun _ _ _ _ => Throw (CompileError "fdr"))
    (fun d => N.of_nat (List.length d))
    (fun d => N.of_nat (List.length d)).

(** Noodle allowed, Teddy not, AVX2 present, other limits. *)
Definition cc_avx2 : CompileContext :=
  mk_cc (mk_Grey true false 2 3 4 5) (mk_target true).


(** * Properties *)

(** ** Arithmetic *)

Lemma wrap64_small (x : N) : x < 2 ^ 64 -> wrap64 x = x.
Proof. intros H. unfold wrap64. now apply N.mod_small. Qed.

Lemma wrap64_lt (x : N) : wrap64 x < 2 ^ 64.
Proof. unfold wrap64. apply N.mod_lt. discriminate. Qed.

(** The mask form rounds up to the next multiple of 64. *)
Lemma ROUNDUP_CL_div (a : N) :
  a + 63 < 2 ^ 64 -> ROUNDUP_CL a = 64 * ((a + 63) / 64).
Proof.
  intros Ha. unfold ROUNDUP_CL, ROUNDUP_N.
  change (64 - 1) with 63. rewrite (wrap64_small _ Ha).
  assert (Hlog : N.log2 (a + 63) < 64).
  { apply N.log2_lt_pow2; lia. }
  rewrite <- (N.ldiff_land_low _ 63 64 Hlog).
  change 63 with (N.ones 6) at 2.
  rewrite N.ldiff_ones_r, N.shiftl_mul_pow2, N.shiftr_div_pow2.
  change (2 ^ 6) with 64. lia.
Qed.

Lemma ROUNDUP_CL_bounds (a : N) :
  a + 63 < 2 ^ 64 -> a <= ROUNDUP_CL a /\ ROUNDUP_CL a <= a + 63.
Proof.
  intros Ha. rewrite (ROUNDUP_CL_div a Ha).
  pose proof (N.div_mod (a + 63) 64 ltac:(discriminate)) as Hdm.
  pose proof (N.mod_lt (a + 63) 64 ltac:(discriminate)) as Hlt.
  clear Ha. revert Hdm Hlt.
  generalize ((a + 63) / 64) ((a + 63) mod 64). intros q r Hdm Hlt. lia.
Qed.

Lemma NO_LIMIT_value : NO_LIMIT = 2 ^ 64 - 1.
Proof. reflexivity. Qed.

(** ** The build monad *)

Lemma bind_Ok {A B} (t : list event) (a : A) (f : A -> M B) :
  bind (t, Ok a) f = (t ++ fst (f a), snd (f a)).
Proof. unfold bind. now destruct (f a). Qed.

Lemma bind_ret {A B} (a : A) (f : A -> M B) : bind (ret a) f = f a.
Proof. unfold ret. rewrite bind_Ok. now destruct (f a). Qed.

Lemma bind_Throw {A B} (t : list event) (e : error) (f : A -> M B) :
  bind (t, Throw e) f = (t, Throw e).
Proof. reflexivity. Qed.

Lemma bind_Abort {A B} (t : list event) (f : A -> M B) :
  bind ((t, Abort) : M A) f = (t, Abort).
Proof. reflexivity. Qed.

Lemma bind_throw {A B} (e : error) (f : A -> M B) :
  bind (throw e) f = throw e.
Proof. reflexivity. Qed.

Lemma sum_lengths_app (l1 l2 : list hwlmLiteral) :
  sum_lengths (l1 ++ l2) = sum_lengths l1 + sum_lengths l2.
Proof. induction l1 as [|x l1 IH]; simpl; [reflexivity | rewrite IH; lia]. Qed.

Section Properties.

Variable E : Externals.
Variable NDEBUG : bool.

(** ** The resource guard *)

(** One turn of the loop, as a cascade of its five exits. *)
Lemma check_literal_eq (cc : CompileContext) (t : N) (lit : hwlmLiteral) :
  check_literal NDEBUG cc t lit =
  if negb NDEBUG && (s_length lit =? 0) then ([], Abort)
  else if s_length lit >? limitLiteralLength (grey cc)
       then ([], Throw ResourceLimitError)
  else if wrap64 (t + s_length lit) >? limitLiteralMatcherChars (grey cc)
       then ([], Throw ResourceLimitError)
  else if lit_id lit =? 0xffffffff
       then (if NDEBUG then ([], Throw (CompileError "Internal error."))
             else ([], Abort))
  else ([], Ok (wrap64 (t + s_length lit))).
Proof.
  unfold check_literal, assert, when.
  destruct NDEBUG; simpl;
    destruct (s_length lit =? 0); simpl;
    destruct (limitLiteralLength (grey cc) <? s_length lit); simpl;
    try reflexivity;
    destruct (limitLiteralMatcherChars (grey cc) <? wrap64 (t + s_length lit));
    simpl; try reflexivity;
    destruct (lit_id lit =? 0xffffffff); reflexivity.
Qed.

(** The loop calls nothing outside. *)
Lemma for_each_check_trace (cc : CompileContext) (lits : list hwlmLiteral) (t : N) :
  fst (for_each (check_literal NDEBUG cc) t lits) = [].
Proof.
  revert t. induction lits as [|l lits IH]; intros t; simpl; [reflexivity|].
  rewrite check_literal_eq.
  repeat match goal with
         | |- context [if ?c then _ else _] => destruct c
         end; try reflexivity.
  rewrite bind_Ok. simpl. apply IH.
Qed.

Lemma hwlmBuild_checks_trace (lits : list hwlmLiteral) (cc : CompileContext) :
  fst (hwlmBuild_checks NDEBUG lits cc) = [].
Proof.
  unfold hwlmBuild_checks, assert, when.
  pose proof (for_each_check_trace cc lits 0) as Hloop.
  destruct (for_each (check_literal NDEBUG cc) 0 lits) as [tr [a | e |]];
    simpl in Hloop; subst tr;
    destruct NDEBUG; simpl;
      repeat match goal with
             | |- context [if ?c then _ else _] => destruct c; simpl
             end; reflexivity.
Qed.

(** [hwlmBuild] is its checks, then the engine, then the packaging: when
    the checks fail nothing else runs. *)
Lemma hwlmBuild_eq (lits : list hwlmLiteral) (make_small : bool)
      (cc : CompileContext) (expected_groups : N) :
  hwlmBuild E NDEBUG lits make_small cc expected_groups =
  match snd (hwlmBuild_checks NDEBUG lits cc) with
  | Ok _ =>
      r <- hwlmBuild_engine E lits make_small cc ;;
      let '(engType, engSize, eng) := r in
      hwlmBuild_package E NDEBUG cc engType engSize eng
  | Throw e => ([], Throw e)
  | Abort => ([], Abort)
  end.
Proof.
  unfold hwlmBuild.
  pose proof (hwlmBuild_checks_trace lits cc) as Htr.
  destruct (hwlmBuild_checks NDEBUG lits cc) as [tr [a | e |]];
    simpl in Htr; subst tr; simpl; try reflexivity.
  match goal with |- (let (_, _) := ?m in _) = _ => now destruct m end.
Qed.

(** Case analysis on the comparisons of a goal. *)
Ltac cmp_cases :=
  repeat match goal with
         | |- context [?a <? ?b] => destruct (N.ltb_spec a b)
         | |- context [?a =? ?b] => destruct (N.eqb_spec a b)
         | |- context [?a <=? ?b] => destruct (N.leb_spec a b)
         end.

(** A running total within the budget and a length within the ceiling
    add up without wrapping. *)
Lemma total_no_wrap (g : Grey) (t len : N) :
  wf_Grey g -> t <= limitLiteralMatcherChars g -> len <= limitLiteralLength g ->
  wrap64 (t + len) = t + len.
Proof.
  intros (_ & Hl & Hc & _) Ht Hlen. apply wrap64_small.
  assert (2 ^ 32 + 2 ^ 32 < 2 ^ 64) by reflexivity. lia.
Qed.

(** The loop stops with the resource-limit error at the first literal
    that is too long or that takes the running total over the budget,
    when no literal before it carries the reserved id (or, with
    assertions compiled in, an empty pattern). *)
Lemma for_each_check_limit (cc : CompileContext) (pre : list hwlmLiteral)
      (l : hwlmLiteral) (post : list hwlmLiteral) (t : N) :
  wf_Grey (grey cc) ->
  t <= limitLiteralMatcherChars (grey cc) ->
  Forall (fun p => lit_id p <> 0xffffffff /\ (NDEBUG = true \/ s_length p <> 0)) pre ->
  limitLiteralLength (grey cc) < s_length l \/
  limitLiteralMatcherChars (grey cc) < t + sum_lengths pre + s_length l ->
  for_each (check_literal NDEBUG cc) t (pre ++ l :: post) =
  ([], Throw ResourceLimitError).
Proof.
  intros Hwf. revert t.
  induction pre as [|p pre IH]; intros t Ht Hpre Hviol; simpl;
    rewrite check_literal_eq.
  - simpl in Hviol.
    assert (Hne : s_length l <> 0) by lia.
    apply N.eqb_neq in Hne. rewrite Hne, andb_false_r.
    destruct (N.ltb_spec (limitLiteralLength (grey cc)) (s_length l)) as [Hlong | Hshort];
      [reflexivity|].
    rewrite (total_no_wrap _ _ _ Hwf Ht Hshort).
    destruct (N.ltb_spec (limitLiteralMatcherChars (grey cc)) (t + s_length l));
      [reflexivity | lia].
  - inversion Hpre as [|? ? [Hid Hs] Hpre']; subst.
    assert (Hassert : negb NDEBUG && (s_length p =? 0) = false).
    { destruct Hs as [-> | Hs]; [reflexivity|].
      apply N.eqb_neq in Hs. now rewrite Hs, andb_false_r. }
    rewrite Hassert.
    destruct (N.ltb_spec (limitLiteralLength (grey cc)) (s_length p)) as [Hlong | Hshort];
      [reflexivity|].
    rewrite (total_no_wrap _ _ _ Hwf Ht Hshort).
    destruct (N.ltb_spec (limitLiteralMatcherChars (grey cc)) (t + s_length p))
      as [Hover | Hin]; [reflexivity|].
    apply N.eqb_neq in Hid. rewrite Hid, bind_Ok. simpl.
    rewrite IH; [reflexivity | exact Hin | exact Hpre' |].
    simpl in Hviol. lia.
Qed.

(** The loop stops at a literal that carries the reserved id when every
    literal up to it is within the length ceiling and the budget. *)
Lemma for_each_check_reserved (cc : CompileContext) (pre : list hwlmLiteral)
      (l : hwlmLiteral) (post : list hwlmLiteral) (t : N) :
  wf_Grey (grey cc) ->
  lit_id l = 0xffffffff ->
  Forall (fun p => s_length p <= limitLiteralLength (grey cc)) (pre ++ [l]) ->
  t + sum_lengths (pre ++ [l]) <= limitLiteralMatcherChars (grey cc) ->
  for_each (check_literal NDEBUG cc) t (pre ++ l :: post) =
  ([], if NDEBUG then Throw (CompileError "Internal error.") else Abort).
Proof.
  intros Hwf Hid. revert t.
  induction pre as [|p pre IH]; intros t Hlen Hsum; simpl in *;
    rewrite check_literal_eq;
    inversion Hlen as [|? ? Hshort Hlen']; subst.
  - rewrite (total_no_wrap (grey cc) t (s_length l) Hwf) by lia.
    rewrite Hid. simpl.
    destruct NDEBUG; simpl; cmp_cases; try reflexivity; lia.
  - rewrite (total_no_wrap (grey cc) t (s_length p) Hwf) by lia.
    destruct NDEBUG; simpl; cmp_cases; try reflexivity; try lia;
      rewrite bind_Ok; simpl;
      (rewrite IH; [reflexivity | exact Hlen' | lia]).
Qed.

(** A batch within the length ceiling and the budget, free of the
    reserved id (and, with assertions compiled in, of empty patterns),
    passes the loop, which ends with the sum of the lengths. *)
Lemma for_each_check_pass (cc : CompileContext) (lits : list hwlmLiteral) (t : N) :
  wf_Grey (grey cc) ->
  Forall (fun p => s_length p <= limitLiteralLength (grey cc)) lits ->
  t + sum_lengths lits <= limitLiteralMatcherChars (grey cc) ->
  Forall (fun p => lit_id p <> 0xffffffff) lits ->
  NDEBUG = true \/ Forall valid_literal lits ->
  for_each (check_literal NDEBUG cc) t lits = ([], Ok (t + sum_lengths lits)).
Proof.
  intros Hwf. revert t.
  induction lits as [|p lits IH]; intros t Hlen Hsum Hid Hvalid; simpl in *.
  - unfold ret. now rewrite N.add_0_r.
  - inversion Hlen as [|? ? Hshort Hlen']; subst.
    inversion Hid as [|? ? Hidp Hid']; subst.
    rewrite check_literal_eq.
    rewrite (total_no_wrap (grey cc) t (s_length p) Hwf) by lia.
    assert (Hassert : negb NDEBUG && (s_length p =? 0) = false).
    { destruct Hvalid as [-> | Hv]; [reflexivity|].
      inversion Hv as [|? ? [Hs _] _]; subst.
      apply N.eqb_neq in Hs. now rewrite Hs, andb_false_r. }
    rewrite Hassert.
    apply N.eqb_neq in Hidp. rewrite Hidp.
    cmp_cases; try lia.
    rewrite bind_Ok. simpl.
    rewrite IH; [simpl; do 2 f_equal; lia | exact Hlen' | lia | exact Hid' |].
    destruct Hvalid as [-> | Hv]; [now left | right].
    now inversion Hv.
Qed.

Lemma everyoneHasGroups_valid (lits : list hwlmLiteral) :
  Forall valid_literal lits -> everyoneHasGroups lits = true.
Proof.
  induction 1 as [|p lits [_ Hg] _ IH]; simpl; [reflexivity|].
  apply N.eqb_neq in Hg. now rewrite Hg.
Qed.


(** The checks, as a cascade of their exits. *)
Lemma hwlmBuild_checks_eq (lits : list hwlmLiteral) (cc : CompileContext) :
  hwlmBuild_checks NDEBUG lits cc =
  if negb NDEBUG && (N.of_nat (List.length lits) =? 0) then ([], Abort)
  else if N.of_nat (List.length lits) >? limitLiteralCount (grey cc)
       then ([], Throw ResourceLimitError)
  else match snd (for_each (check_literal NDEBUG cc) 0 lits) with
       | Ok _ => if negb NDEBUG && negb (everyoneHasGroups lits)
                 then ([], Abort) else ([], Ok tt)
       | Throw e => ([], Throw e)
       | Abort => ([], Abort)
       end.
Proof.
  unfold hwlmBuild_checks, assert, when.
  pose proof (for_each_check_trace cc lits 0) as Hloop.
  destruct (for_each (check_literal NDEBUG cc) 0 lits) as [tr [a | e |]];
    simpl in Hloop; subst tr;
    destruct NDEBUG; simpl;
      destruct (N.of_nat (List.length lits) =? 0); simpl;
      destruct (limitLiteralCount (grey cc) <? N.of_nat (List.length lits)); simpl;
      try reflexivity;
      destruct (everyoneHasGroups lits); reflexivity.
Qed.

(** The checks pass a batch that is not empty, is within the count
    ceiling, the length ceiling and the budget, and is free of the
    reserved id (and, with assertions compiled in, of empty patterns and
    zero group masks). *)
Lemma hwlmBuild_checks_pass (lits : list hwlmLiteral) (cc : CompileContext) :
  wf_Grey (grey cc) ->
  lits <> [] ->
  N.of_nat (List.length lits) <= limitLiteralCount (grey cc) ->
  Forall (fun p => s_length p <= limitLiteralLength (grey cc)) lits ->
  sum_lengths lits <= limitLiteralMatcherChars (grey cc) ->
  Forall (fun p => lit_id p <> 0xffffffff) lits ->
  NDEBUG = true \/ Forall valid_literal lits ->
  snd (hwlmBuild_checks NDEBUG lits cc) = Ok tt.
Proof.
  intros Hwf Hne Hcount Hlen Hsum Hid Hvalid.
  rewrite hwlmBuild_checks_eq.
  assert (Hn0 : N.of_nat (List.length lits) <> 0).
  { destruct lits; [congruence | simpl; lia]. }
  apply N.eqb_neq in Hn0. rewrite Hn0, andb_false_r.
  destruct (N.ltb_spec (limitLiteralCount (grey cc)) (N.of_nat (List.length lits)));
    [lia|].
  rewrite (for_each_check_pass cc lits 0 Hwf Hlen); try assumption.
  simpl.
  destruct Hvalid as [-> | Hv]; [reflexivity|].
  now rewrite (everyoneHasGroups_valid _ Hv), andb_false_r.
Qed.

(** C4 (amended).  The build call fails with the resource-limit error,
    its trace empty (no engine builder is invoked, nothing is
    allocated), whenever the literal count exceeds the count ceiling;
    and whenever some literal is longer than the per-literal ceiling or
    takes the running sum of the lengths over the aggregate budget (be
    every single length within the ceiling or not), provided no literal
    before it carries the reserved id or, with assertions compiled in,
    an empty pattern. *)
Theorem hwlmBuild_resource_limits (lits : list hwlmLiteral) (make_small : bool)
        (cc : CompileContext) (expected_groups : N) :
  wf_Grey (grey cc) ->
  (limitLiteralCount (grey cc) < N.of_nat (List.length lits) ->
   hwlmBuild E NDEBUG lits make_small cc expected_groups =
   ([], Throw ResourceLimitError)) /\
  (forall pre l post,
      lits = pre ++ l :: post ->
      Forall (fun p => lit_id p <> 0xffffffff /\
                       (NDEBUG = true \/ s_length p <> 0)) pre ->
      limitLiteralLength (grey cc) < s_length l \/
      limitLiteralMatcherChars (grey cc) < sum_lengths pre + s_length l ->
      hwlmBuild E NDEBUG lits make_small cc expected_groups =
      ([], Throw ResourceLimitError)).
Proof.
  intros Hwf. split.
  - intros Hcount. rewrite hwlmBuild_eq, hwlmBuild_checks_eq.
    assert (Hne : N.of_nat (List.length lits) <> 0) by lia.
    apply N.eqb_neq in Hne. rewrite Hne, andb_false_r.
    apply N.ltb_lt in Hcount. now rewrite Hcount.
  - intros pre l post -> Hpre Hviol.
    rewrite hwlmBuild_eq, hwlmBuild_checks_eq.
    assert (Hne : N.of_nat (List.length (pre ++ l :: post)) <> 0).
    { rewrite length_app. simpl. lia. }
    apply N.eqb_neq in Hne. rewrite Hne, andb_false_r.
    destruct (N.ltb_spec (limitLiteralCount (grey cc))
                         (N.of_nat (List.length (pre ++ l :: post))));
      [reflexivity|].
    rewrite (for_each_check_limit cc pre l post 0 Hwf); [reflexivity | lia | exact Hpre |].
    destruct Hviol; [now left | right; lia].
Qed.

(** C6 (amended).  When the literal count is within the ceiling and the
    batch holds a literal with the reserved id such that the literals up
    to and including it are within the length ceiling and the aggregate
    budget, the build call fails with the internal error: the compile
    error "Internal error." in a build without assertions, a failed
    assertion in a build with them.  That failure is not the
    resource-limit error, and the trace is empty. *)
Theorem hwlmBuild_reserved_id (lits : list hwlmLiteral) (make_small : bool)
        (cc : CompileContext) (expected_groups : N)
        (pre : list hwlmLiteral) (l : hwlmLiteral) (post : list hwlmLiteral) :
  wf_Grey (grey cc) ->
  N.of_nat (List.length lits) <= limitLiteralCount (grey cc) ->
  lits = pre ++ l :: post ->
  lit_id l = 0xffffffff ->
  Forall (fun p => s_length p <= limitLiteralLength (grey cc)) (pre ++ [l]) ->
  sum_lengths (pre ++ [l]) <= limitLiteralMatcherChars (grey cc) ->
  hwlmBuild E NDEBUG lits make_small cc expected_groups =
  ([], if NDEBUG then Throw (CompileError "Internal error.") else Abort) /\
  internal_violation (snd (hwlmBuild E NDEBUG lits make_small cc expected_groups)) /\
  snd (hwlmBuild E NDEBUG lits make_small cc expected_groups) <>
  Throw ResourceLimitError.
Proof.
  intros Hwf Hcount -> Hid Hlen Hsum.
  assert (Hrun : hwlmBuild E NDEBUG (pre ++ l :: post) make_small cc expected_groups =
                 ([], if NDEBUG then Throw (CompileError "Internal error.") else Abort)).
  { rewrite hwlmBuild_eq, hwlmBuild_checks_eq.
    assert (Hne : N.of_nat (List.length (pre ++ l :: post)) <> 0).
    { rewrite length_app. simpl. lia. }
    apply N.eqb_neq in Hne. rewrite Hne, andb_false_r.
    destruct (N.ltb_spec (limitLiteralCount (grey cc))
                         (N.of_nat (List.length (pre ++ l :: post))));
      [lia|].
    rewrite (for_each_check_reserved cc pre l post 0 Hwf Hid Hlen Hsum).
    now destruct NDEBUG. }
  rewrite Hrun. split; [reflexivity|].
  destruct NDEBUG; simpl; split; try exact I; discriminate.
Qed.


(** ** The engine selector *)

Lemma isNoodleable_spec (lits : list hwlmLiteral) (cc : CompileContext) :
  isNoodleable lits cc = true <->
  allowNoodle (grey cc) = true /\ exists lit, lits = [lit] /\ lit_msk lit = [].
Proof.
  unfold isNoodleable, front. split.
  - destruct (allowNoodle (grey cc)); cbn [negb]; [|discriminate].
    destruct (N.eqb_spec (N.of_nat (List.length lits)) 1) as [Hlen | Hlen];
      cbn [negb]; [|discriminate].
    destruct lits as [|lit [|lit' rest]]; cbn [List.length hd_error] in *; try lia.
    destruct (lit_msk lit) eqn:Hmsk; [|discriminate].
    intros _. split; [reflexivity|]. now exists lit.
  - intros (-> & lit & -> & Hmsk). cbn. now rewrite Hmsk.
Qed.

(** The engine stage: one call, of the builder [isNoodleable] names. *)
Lemma hwlmBuild_engine_eq (lits : list hwlmLiteral) (make_small : bool)
      (cc : CompileContext) :
  hwlmBuild_engine E lits make_small cc =
  if isNoodleable lits cc then
    match front lits with
    | Some lit =>
        ([EvNoodBuildTable lit],
         match noodBuildTable E lit with
         | Ok noodle =>
             Ok (HWLM_ENGINE_NOOD E,
                 match noodle with Some b => bc_size b | None => 0 end, noodle)
         | Throw e => Throw e
         | Abort => Abort
         end)
    | None => ([], Abort)
    end
  else
    ([EvFdrBuildTable lits make_small (target_info cc) (grey cc)],
     match fdrBuildTable E lits make_small (target_info cc) (grey cc) with
     | Ok fdr =>
         Ok (HWLM_ENGINE_FDR E,
             match fdr with Some b => bc_size b | None => 0 end, fdr)
     | Throw e => Throw e
     | Abort => Abort
     end).
Proof.
  unfold hwlmBuild_engine, call.
  destruct (isNoodleable lits cc).
  - destruct (front lits) as [lit|]; [|reflexivity].
    now destruct (noodBuildTable E lit) as [noodle | e |].
  - now destruct (fdrBuildTable E lits make_small (target_info cc) (grey cc))
      as [fdr | e |].
Qed.

(** What the engine stage returns: the tag of the builder it called, the
    table of that builder, and the size of the table. *)
Lemma hwlmBuild_engine_Ok (lits : list hwlmLiteral) (make_small : bool)
      (cc : CompileContext) (engType engSize : N) (eng : bytecode_ptr (list byte)) :
  snd (hwlmBuild_engine E lits make_small cc) = Ok (engType, engSize, eng) ->
  engSize = match eng with Some b => bc_size b | None => 0 end /\
  ((exists lit, lits = [lit] /\ isNoodleable lits cc = true /\
                engType = HWLM_ENGINE_NOOD E /\
                noodBuildTable E lit = Ok eng /\
                fst (hwlmBuild_engine E lits make_small cc) = [EvNoodBuildTable lit]) \/
   (isNoodleable lits cc = false /\ engType = HWLM_ENGINE_FDR E /\
    fdrBuildTable E lits make_small (target_info cc) (grey cc) = Ok eng /\
    fst (hwlmBuild_engine E lits make_small cc) =
    [EvFdrBuildTable lits make_small (target_info cc) (grey cc)])).
Proof.
  rewrite hwlmBuild_engine_eq.
  destruct (isNoodleable lits cc) eqn:Hnood.
  - apply isNoodleable_spec in Hnood. destruct Hnood as (_ & lit & -> & _).
    simpl. destruct (noodBuildTable E lit) as [noodle | e |] eqn:Hb;
      simpl; try discriminate.
    intros [= <- <- <-]. split; [reflexivity|].
    left. exists lit. now rewrite Hb.
  - simpl.
    destruct (fdrBuildTable E lits make_small (target_info cc) (grey cc))
      as [fdr | e |] eqn:Hb; simpl; try discriminate.
    intros [= <- <- <-]. split; [reflexivity|]. now right.
Qed.

(** The packaging, as a cascade of its exits. *)
Lemma hwlmBuild_package_eq (cc : CompileContext) (engType engSize : N)
      (eng : bytecode_ptr (list byte)) :
  hwlmBuild_package E NDEBUG cc engType engSize eng =
  match eng with
  | None => ([], Ok None)
  | Some e =>
      if negb NDEBUG && (engSize =? 0) then ([], Abort)
      else if engSize >? limitLiteralMatcherSize (grey cc)
           then ([], Throw ResourceLimitError)
      else ([EvAlloc (wrap64 (ROUNDUP_CL (sizeof_HWLM E) + engSize)) 64],
            Ok (Some (mk_bytecode
                        (mk_HWLM engType (memcpy (bc_get e) engSize))
                        (wrap64 (ROUNDUP_CL (sizeof_HWLM E) + engSize)))))
  end.
Proof.
  unfold hwlmBuild_package, assert, when, make_bytecode_ptr, call.
  destruct eng as [e|]; [|reflexivity].
  destruct NDEBUG; simpl;
    destruct (engSize =? 0); simpl;
    destruct (limitLiteralMatcherSize (grey cc) <? engSize); reflexivity.
Qed.

(** The packaging calls no builder. *)
Lemma hwlmBuild_package_calls (cc : CompileContext) (engType engSize : N)
      (eng : bytecode_ptr (list byte)) :
  builder_calls (fst (hwlmBuild_package E NDEBUG cc engType engSize eng)) = [].
Proof.
  rewrite hwlmBuild_package_eq. destruct eng as [e|]; [|reflexivity].
  destruct (negb NDEBUG && (engSize =? 0)); [reflexivity|].
  now destruct (limitLiteralMatcherSize (grey cc) <? engSize).
Qed.

(** A build call whose checks pass and whose engine stage returns is the
    packaging of what the engine stage returned. *)
Lemma hwlmBuild_engine_package (lits : list hwlmLiteral) (make_small : bool)
      (cc : CompileContext) (expected_groups : N)
      (engType engSize : N) (eng : bytecode_ptr (list byte)) :
  snd (hwlmBuild_checks NDEBUG lits cc) = Ok tt ->
  snd (hwlmBuild_engine E lits make_small cc) = Ok (engType, engSize, eng) ->
  hwlmBuild E NDEBUG lits make_small cc expected_groups =
  (fst (hwlmBuild_engine E lits make_small cc) ++
   fst (hwlmBuild_package E NDEBUG cc engType engSize eng),
   snd (hwlmBuild_package E NDEBUG cc engType engSize eng)).
Proof.
  intros Hchecks Hengine. rewrite hwlmBuild_eq, Hchecks.
  destruct (hwlmBuild_engine E lits make_small cc) as [tr r].
  simpl in Hengine. subst r. now rewrite bind_Ok.
Qed.

(** C1 (amended).  [isNoodleable] holds exactly when the specialist is
    enabled, the batch is a single literal and that literal has an empty
    supplementary mask.  A build call that passes the checks of the
    resource guard invokes exactly one engine builder: the noodle
    builder on that literal when [isNoodleable] holds, the FDR builder
    on the whole batch in every other case.  A build call the checks
    reject invokes none. *)
Theorem hwlmBuild_engine_choice (lits : list hwlmLiteral) (make_small : bool)
        (cc : CompileContext) (expected_groups : N) :
  (isNoodleable lits cc = true <->
   allowNoodle (grey cc) = true /\ exists lit, lits = [lit] /\ lit_msk lit = []) /\
  match snd (hwlmBuild_checks NDEBUG lits cc) with
  | Ok _ =>
      (isNoodleable lits cc = true /\
       exists lit, lits = [lit] /\
         builder_calls (fst (hwlmBuild E NDEBUG lits make_small cc expected_groups)) =
         [EvNoodBuildTable lit]) \/
      (isNoodleable lits cc = false /\
       builder_calls (fst (hwlmBuild E NDEBUG lits make_small cc expected_groups)) =
       [EvFdrBuildTable lits make_small (target_info cc) (grey cc)])
  | _ => fst (hwlmBuild E NDEBUG lits make_small cc expected_groups) = []
  end.
Proof.
  split; [apply isNoodleable_spec|].
  rewrite hwlmBuild_eq.
  destruct (snd (hwlmBuild_checks NDEBUG lits cc)) as [[] | e |]; try reflexivity.
  rewrite hwlmBuild_engine_eq.
  destruct (isNoodleable lits cc) eqn:Hnood.
  - left. split; [reflexivity|].
    apply isNoodleable_spec in Hnood. destruct Hnood as (_ & lit & -> & _).
    exists lit. split; [reflexivity|]. simpl.
    destruct (noodBuildTable E lit) as [noodle | e |]; try reflexivity.
    match goal with
    | |- context [hwlmBuild_package E NDEBUG cc ?ty ?sz ?eng] =>
        pose proof (hwlmBuild_package_calls cc ty sz eng) as Hp;
        destruct (hwlmBuild_package E NDEBUG cc ty sz eng) as [t' r]
    end.
    unfold builder_calls in *. simpl in *. now rewrite Hp.
  - right. split; [reflexivity|].
    destruct (fdrBuildTable E lits make_small (target_info cc) (grey cc))
      as [fdr | e |]; try reflexivity.
    cbn.
    match goal with
    | |- context [hwlmBuild_package E NDEBUG cc ?ty ?sz ?eng] =>
        pose proof (hwlmBuild_package_calls cc ty sz eng) as Hp;
        destruct (hwlmBuild_package E NDEBUG cc ty sz eng) as [t' r]
    end.
    unfold builder_calls in *. simpl in *. now rewrite Hp.
Qed.


(** ** The packager *)

(** C7.  When the checks have passed and the invoked engine builder
    returns a table whose size exceeds the compiled-size ceiling, the
    build call fails with the resource-limit error and has allocated
    nothing: no blob, whole or partial, is returned. *)
Theorem hwlmBuild_table_too_large (lits : list hwlmLiteral) (make_small : bool)
        (cc : CompileContext) (expected_groups : N)
        (engType engSize : N) (e : bytecode (list byte)) :
  snd (hwlmBuild_checks NDEBUG lits cc) = Ok tt ->
  snd (hwlmBuild_engine E lits make_small cc) = Ok (engType, engSize, Some e) ->
  limitLiteralMatcherSize (grey cc) < bc_size e ->
  snd (hwlmBuild E NDEBUG lits make_small cc expected_groups) =
  Throw ResourceLimitError /\
  allocations (fst (hwlmBuild E NDEBUG lits make_small cc expected_groups)) = [].
Proof.
  intros Hchecks Hengine Hbig.
  rewrite (hwlmBuild_engine_package _ _ _ _ _ _ _ Hchecks Hengine).
  destruct (hwlmBuild_engine_Ok _ _ _ _ _ _ Hengine) as [Hsize Hcall].
  simpl in Hsize. subst engSize.
  rewrite hwlmBuild_package_eq.
  assert (Hne : bc_size e <> 0) by lia.
  apply N.eqb_neq in Hne. rewrite Hne, andb_false_r.
  apply N.ltb_lt in Hbig. rewrite Hbig. simpl.
  split; [reflexivity|].
  rewrite app_nil_r.
  destruct Hcall as [(lit & _ & _ & _ & _ & ->) | (_ & _ & _ & ->)]; reflexivity.
Qed.

(** C9 (amended).  When the checks have passed and the invoked engine
    builder returns no table, the build call returns the null blob,
    raises no error and allocates nothing.  A table that is not null is
    never turned into the null blob; one of zero bytes fails
    [assert(engSize)] when assertions are compiled in, and is packaged
    into a blob of the bare aligned header when they are not. *)
Theorem hwlmBuild_empty_table (lits : list hwlmLiteral) (make_small : bool)
        (cc : CompileContext) (expected_groups : N) :
  snd (hwlmBuild_checks NDEBUG lits cc) = Ok tt ->
  (forall engType engSize,
      snd (hwlmBuild_engine E lits make_small cc) = Ok (engType, engSize, None) ->
      snd (hwlmBuild E NDEBUG lits make_small cc expected_groups) = Ok None /\
      allocations (fst (hwlmBuild E NDEBUG lits make_small cc expected_groups)) = []) /\
  (forall engType engSize e,
      snd (hwlmBuild_engine E lits make_small cc) = Ok (engType, engSize, Some e) ->
      snd (hwlmBuild E NDEBUG lits make_small cc expected_groups) <> Ok None /\
      (bc_size e = 0 ->
       snd (hwlmBuild E NDEBUG lits make_small cc expected_groups) =
       if NDEBUG
       then Ok (Some (mk_bytecode (mk_HWLM engType [])
                                  (wrap64 (ROUNDUP_CL (sizeof_HWLM E) + 0))))
       else Abort)).
Proof.
  intros Hchecks. split.
  - intros engType engSize Hengine.
    rewrite (hwlmBuild_engine_package _ _ _ _ _ _ _ Hchecks Hengine).
    destruct (hwlmBuild_engine_Ok _ _ _ _ _ _ Hengine) as [_ Hcall].
    rewrite hwlmBuild_package_eq. simpl. split; [reflexivity|].
    rewrite app_nil_r.
    destruct Hcall as [(lit & _ & _ & _ & _ & ->) | (_ & _ & _ & ->)]; reflexivity.
  - intros engType engSize e Hengine.
    rewrite (hwlmBuild_engine_package _ _ _ _ _ _ _ Hchecks Hengine).
    destruct (hwlmBuild_engine_Ok _ _ _ _ _ _ Hengine) as [Hsize _].
    simpl in Hsize. subst engSize.
    rewrite hwlmBuild_package_eq. split.
    + destruct (negb NDEBUG && (bc_size e =? 0)); [discriminate|].
      destruct (limitLiteralMatcherSize (grey cc) <? bc_size e); discriminate.
    + intros ->. destruct NDEBUG; simpl; [|reflexivity].
      destruct (N.ltb_spec (limitLiteralMatcherSize (grey cc)) 0); [lia|].
      reflexivity.
Qed.

(** ** The size inspector *)

(** The aligned header and a table within the compiled-size ceiling add
    up without wrapping. *)
Lemma blob_size_no_wrap (g : Grey) (engSize : N) :
  wf_Externals E -> wf_Grey g -> engSize <= limitLiteralMatcherSize g ->
  wrap64 (ROUNDUP_CL (sizeof_HWLM E) + engSize) =
  ROUNDUP_CL (sizeof_HWLM E) + engSize.
Proof.
  intros [_ Hhdr] (_ & _ & _ & Hlim) Hsz. apply wrap64_small.
  assert (H32 : 2 ^ 32 + 63 + 2 ^ 32 < 2 ^ 64) by reflexivity.
  assert (Hfit : sizeof_HWLM E + 63 < 2 ^ 64) by lia.
  pose proof (ROUNDUP_CL_bounds _ Hfit) as [_ Hup]. lia.
Qed.

(** C3.  [hwlmSize] is a total function: it returns and raises nothing.
    It returns zero when the tag is neither of the two engine tags, and
    when the size function of the engine the tag names reports zero; in
    every other case it returns the size that engine reports plus the
    cache-line-rounded header size, the sum taken in [size_t]. *)
Theorem hwlmSize_cases (h : HWLM) :
  HWLM_ENGINE_NOOD E <> HWLM_ENGINE_FDR E ->
  (type h <> HWLM_ENGINE_NOOD E -> type h <> HWLM_ENGINE_FDR E ->
   hwlmSize E h = 0) /\
  (type h = HWLM_ENGINE_NOOD E -> noodSize E (HWLM_DATA h) = 0 ->
   hwlmSize E h = 0) /\
  (type h = HWLM_ENGINE_FDR E -> fdrSize E (HWLM_DATA h) = 0 ->
   hwlmSize E h = 0) /\
  (type h = HWLM_ENGINE_NOOD E -> noodSize E (HWLM_DATA h) <> 0 ->
   hwlmSize E h = wrap64 (noodSize E (HWLM_DATA h) + ROUNDUP_CL (sizeof_HWLM E)) /\
   (noodSize E (HWLM_DATA h) + ROUNDUP_CL (sizeof_HWLM E) < 2 ^ 64 ->
    hwlmSize E h = noodSize E (HWLM_DATA h) + ROUNDUP_CL (sizeof_HWLM E))) /\
  (type h = HWLM_ENGINE_FDR E -> fdrSize E (HWLM_DATA h) <> 0 ->
   hwlmSize E h = wrap64 (fdrSize E (HWLM_DATA h) + ROUNDUP_CL (sizeof_HWLM E)) /\
   (fdrSize E (HWLM_DATA h) + ROUNDUP_CL (sizeof_HWLM E) < 2 ^ 64 ->
    hwlmSize E h = fdrSize E (HWLM_DATA h) + ROUNDUP_CL (sizeof_HWLM E))).
Proof.
  intros Htags. unfold hwlmSize, hwlmSize_engSize.
  assert (Hfdr : type h = HWLM_ENGINE_FDR E ->
                 (type h =? HWLM_ENGINE_NOOD E) = false /\
                 (type h =? HWLM_ENGINE_FDR E) = true).
  { intros Hf. split; [apply N.eqb_neq; congruence | now apply N.eqb_eq]. }
  split; [|split; [|split; [|split]]].
  - intros Hn Hf. apply N.eqb_neq in Hn, Hf. now rewrite Hn, Hf.
  - intros Hn Hz. apply N.eqb_eq in Hn. now rewrite Hn, Hz.
  - intros Hf Hz. destruct (Hfdr Hf) as [Hn Hf']. now rewrite Hn, Hf', Hz.
  - intros Hn Hnz. apply N.eqb_eq in Hn. apply N.eqb_neq in Hnz.
    rewrite Hn, Hnz. split; [reflexivity|].
    intros Hfit. now apply wrap64_small.
  - intros Hf Hnz. destruct (Hfdr Hf) as [Hn Hf']. apply N.eqb_neq in Hnz.
    rewrite Hn, Hf', Hnz. split; [reflexivity|].
    intros Hfit. now apply wrap64_small.
Qed.

(** C10 (amended).  Whenever the size the engine reports and the aligned
    header add up within [size_t], [hwlmSize] returns either zero or
    more than the cache-line-rounded header size, never a value in
    between. *)
Theorem hwlmSize_zero_or_above_header (h : HWLM) :
  hwlmSize_engSize E h + ROUNDUP_CL (sizeof_HWLM E) < 2 ^ 64 ->
  hwlmSize E h = 0 \/ ROUNDUP_CL (sizeof_HWLM E) < hwlmSize E h.
Proof.
  intros Hfit. unfold hwlmSize.
  destruct (N.eqb_spec (hwlmSize_engSize E h) 0) as [Hz | Hnz]; [now left|].
  right. rewrite (wrap64_small _ Hfit). lia.
Qed.


(** What the size inspector says of a blob the packaging has just
    written, when the engine reports the size of its table. *)
Lemma hwlmSize_packaged (engType engSize : N) (data : list byte) :
  HWLM_ENGINE_NOOD E <> HWLM_ENGINE_FDR E ->
  (engType = HWLM_ENGINE_NOOD E /\ noodSize E data = engSize) \/
  (engType = HWLM_ENGINE_FDR E /\ fdrSize E data = engSize) ->
  engSize <> 0 ->
  hwlmSize E (mk_HWLM engType data) =
  wrap64 (ROUNDUP_CL (sizeof_HWLM E) + engSize).
Proof.
  intros Htags Hreport Hnz. unfold hwlmSize, hwlmSize_engSize. simpl.
  assert (Heng : (if engType =? HWLM_ENGINE_NOOD E then noodSize E data
                  else if engType =? HWLM_ENGINE_FDR E then fdrSize E data
                  else 0) = engSize).
  { destruct Hreport as [[-> Hs] | [-> Hs]].
    - now rewrite N.eqb_refl.
    - assert (Hne : HWLM_ENGINE_FDR E <> HWLM_ENGINE_NOOD E) by congruence.
      apply N.eqb_neq in Hne. now rewrite Hne, N.eqb_refl. }
  rewrite Heng. apply N.eqb_neq in Hnz. rewrite Hnz.
  f_equal. lia.
Qed.

(** The size the engine named by the tag reports for a payload the
    packaging has just written, when the engine reports the size of its
    table. *)
Lemma hwlmSize_engSize_packaged (engType engSize : N) (data : list byte) :
  HWLM_ENGINE_NOOD E <> HWLM_ENGINE_FDR E ->
  (engType = HWLM_ENGINE_NOOD E /\ noodSize E data = engSize) \/
  (engType = HWLM_ENGINE_FDR E /\ fdrSize E data = engSize) ->
  hwlmSize_engSize E (mk_HWLM engType data) = engSize.
Proof.
  intros Htags Hreport. unfold hwlmSize_engSize. cbn [type HWLM_DATA].
  destruct Hreport as [[-> Hs] | [-> Hs]].
  - now rewrite N.eqb_refl.
  - assert (Hne : HWLM_ENGINE_FDR E <> HWLM_ENGINE_NOOD E) by congruence.
    apply N.eqb_neq in Hne. now rewrite Hne, N.eqb_refl.
Qed.

(** C2 (amended).  Each engine's size function is assumed to report the
    size its builder reported.  Every blob a build call returns was
    allocated with the cache-line-rounded header size plus the size of
    the table of the invoked builder.  When that table has a size that
    is not zero, [hwlmSize] applied to the blob returns exactly the size
    the blob was allocated with.  When it has size zero, which only a
    build without assertions lets through, [hwlmSize] returns zero. *)
Theorem hwlmSize_round_trip (lits : list hwlmLiteral) (make_small : bool)
        (cc : CompileContext) (expected_groups : N) (b : bytecode HWLM) :
  wf_Externals E -> wf_Grey (grey cc) -> sizes_agree E ->
  snd (hwlmBuild E NDEBUG lits make_small cc expected_groups) = Ok (Some b) ->
  exists engType engSize e,
    snd (hwlmBuild_engine E lits make_small cc) = Ok (engType, engSize, Some e) /\
    engSize = bc_size e /\
    allocations (fst (hwlmBuild E NDEBUG lits make_small cc expected_groups)) =
    [EvAlloc (bc_size b) 64] /\
    bc_size b = ROUNDUP_CL (sizeof_HWLM E) + engSize /\
    (engSize <> 0 -> hwlmSize E (bc_get b) = bc_size b) /\
    (engSize = 0 -> NDEBUG = true /\ hwlmSize E (bc_get b) = 0).
Proof.
  intros HwfE Hwf [Hnood Hfdr] Hrun.
  rewrite hwlmBuild_eq in Hrun |- *.
  destruct (snd (hwlmBuild_checks NDEBUG lits cc)) as [[] | err |];
    try discriminate.
  destruct (hwlmBuild_engine E lits make_small cc) as [tr [[[engType engSize] eng] | err |]]
    eqn:Hengine; try discriminate.
  rewrite bind_Ok in Hrun |- *. cbn [fst snd] in Hrun |- *.
  assert (Hengine' : snd (hwlmBuild_engine E lits make_small cc) =
                     Ok (engType, engSize, eng)) by now rewrite Hengine.
  destruct (hwlmBuild_engine_Ok _ _ _ _ _ _ Hengine') as [Hsize Hcall].
  rewrite hwlmBuild_package_eq in Hrun |- *.
  destruct eng as [e|]; [|discriminate].
  destruct (negb NDEBUG && (engSize =? 0)) eqn:Hzero; [discriminate|].
  destruct (N.ltb_spec (limitLiteralMatcherSize (grey cc)) engSize) as [|Hlim];
    [discriminate|].
  cbn [fst snd] in Hrun |- *. injection Hrun as <-.
  assert (Hreport :
            (engType = HWLM_ENGINE_NOOD E /\
             noodSize E (memcpy (bc_get e) engSize) = engSize) \/
            (engType = HWLM_ENGINE_FDR E /\
             fdrSize E (memcpy (bc_get e) engSize) = engSize)).
  { cbn [bc_size] in Hsize. subst engSize.
    destruct Hcall as [(lit & _ & _ & -> & Hb & _) | (_ & -> & Hb & _)];
      [left | right]; split; eauto. }
  exists engType, engSize, e. cbn [bc_get bc_size].
  rewrite (blob_size_no_wrap _ _ HwfE Hwf Hlim).
  split; [reflexivity|]. split; [exact Hsize|]. split; [|split; [reflexivity|split]].
  - rewrite Hengine in Hcall. cbn [fst] in Hcall.
    destruct Hcall as [(lit & _ & _ & _ & _ & ->) | (_ & _ & _ & ->)]; reflexivity.
  - intros Hnz.
    rewrite (hwlmSize_packaged engType engSize);
      [now apply (blob_size_no_wrap (grey cc)) | apply HwfE | exact Hreport | exact Hnz].
  - intros Hz. split.
    + destruct NDEBUG; [reflexivity|].
      cbn [negb andb] in Hzero. apply N.eqb_neq in Hzero. contradiction.
    + unfold hwlmSize.
      rewrite (hwlmSize_engSize_packaged engType engSize _ (proj1 HwfE) Hreport).
      now rewrite Hz.
Qed.

(** C8 (amended).  For every batch that is not empty, whose count,
    lengths and sum of lengths are within the limits, none of whose
    literals carries the reserved id (nor, with assertions compiled in,
    an empty pattern or a zero group mask), and for which the invoked
    builder returns a table of non-zero size within the compiled-size
    ceiling, the build call returns a blob that is not null; its
    [hwlmSize] exceeds the aligned header, hence zero, when the engines'
    size functions report the sizes their builders reported. *)
Theorem hwlmBuild_within_limits (lits : list hwlmLiteral) (make_small : bool)
        (cc : CompileContext) (expected_groups : N)
        (engType engSize : N) (e : bytecode (list byte)) :
  wf_Externals E -> wf_Grey (grey cc) ->
  lits <> [] ->
  N.of_nat (List.length lits) <= limitLiteralCount (grey cc) ->
  Forall (fun p => s_length p <= limitLiteralLength (grey cc)) lits ->
  sum_lengths lits <= limitLiteralMatcherChars (grey cc) ->
  Forall (fun p => lit_id p <> 0xffffffff) lits ->
  NDEBUG = true \/ Forall valid_literal lits ->
  snd (hwlmBuild_engine E lits make_small cc) = Ok (engType, engSize, Some e) ->
  0 < bc_size e <= limitLiteralMatcherSize (grey cc) ->
  exists b,
    snd (hwlmBuild E NDEBUG lits make_small cc expected_groups) = Ok (Some b) /\
    type (bc_get b) = engType /\
    bc_size b = ROUNDUP_CL (sizeof_HWLM E) + bc_size e /\
    (sizes_agree E ->
     hwlmSize E (bc_get b) = bc_size b /\
     ROUNDUP_CL (sizeof_HWLM E) < hwlmSize E (bc_get b) /\
     0 < hwlmSize E (bc_get b)).
Proof.
  intros HwfE Hwf Hne Hcount Hlen Hsum Hid Hvalid Hengine [Hpos Hlim].
  pose proof (hwlmBuild_checks_pass lits cc Hwf Hne Hcount Hlen Hsum Hid Hvalid)
    as Hchecks.
  rewrite (hwlmBuild_engine_package _ _ _ _ _ _ _ Hchecks Hengine).
  destruct (hwlmBuild_engine_Ok _ _ _ _ _ _ Hengine) as [Hsize Hcall].
  simpl in Hsize. subst engSize.
  rewrite hwlmBuild_package_eq.
  assert (Hnz : bc_size e <> 0) by lia.
  pose proof Hnz as Hnzb. apply N.eqb_neq in Hnzb. rewrite Hnzb, andb_false_r.
  destruct (N.ltb_spec (limitLiteralMatcherSize (grey cc)) (bc_size e)); [lia|].
  cbn [snd]. eexists. split; [reflexivity|]. cbn [bc_get bc_size type].
  rewrite (blob_size_no_wrap _ _ HwfE Hwf Hlim).
  split; [reflexivity|]. split; [reflexivity|].
  intros [Hnood Hfdr].
  assert (Hsz : hwlmSize E (mk_HWLM engType (memcpy (bc_get e) (bc_size e))) =
                ROUNDUP_CL (sizeof_HWLM E) + bc_size e).
  { rewrite (hwlmSize_packaged engType (bc_size e));
      [now apply (blob_size_no_wrap (grey cc)) | apply HwfE | | exact Hnz].
    destruct Hcall as [(lit & _ & _ & -> & Hb & _) | (_ & -> & Hb & _)];
      [left | right]; split; eauto. }
  rewrite Hsz. lia.
Qed.


(** ** The flood heuristic *)

(** C5.  [hwlmFloodProneSuffixLen] depends on the literal count and the
    configuration only.  It returns the all-ones value [NO_LIMIT] when
    noodle is allowed and there is at most one literal, and 3 in every
    other case: so for 48 literals with Teddy allowed and no AVX2, for
    96 literals with Teddy allowed and AVX2, and for 200 literals
    whatever the flags. *)
Theorem hwlmFloodProneSuffixLen_cases (numLiterals : N) (cc : CompileContext) :
  NO_LIMIT = 2 ^ 64 - 1 /\
  (allowNoodle (grey cc) = true /\ numLiterals <= 1 ->
   hwlmFloodProneSuffixLen numLiterals cc = NO_LIMIT) /\
  (allowNoodle (grey cc) = false \/ 1 < numLiterals ->
   hwlmFloodProneSuffixLen numLiterals cc = 3) /\
  (allowNoodle (grey cc) = true -> hwlmFloodProneSuffixLen 1 cc = NO_LIMIT) /\
  (fdrAllowTeddy (grey cc) = true -> has_avx2 (target_info cc) = false ->
   hwlmFloodProneSuffixLen 48 cc = 3) /\
  (fdrAllowTeddy (grey cc) = true -> has_avx2 (target_info cc) = true ->
   hwlmFloodProneSuffixLen 96 cc = 3) /\
  hwlmFloodProneSuffixLen 200 cc = 3.
Proof.
  unfold hwlmFloodProneSuffixLen.
  split; [reflexivity|].
  split; [intros [-> Hn]; apply N.leb_le in Hn; now rewrite Hn|].
  split.
  { intros [-> | Hn]; simpl.
    - now destruct (fdrAllowTeddy (grey cc)), (numLiterals <=? 48),
        (has_avx2 (target_info cc) && (numLiterals <=? 96)).
    - apply N.leb_gt in Hn. rewrite Hn, andb_false_r.
      now destruct (fdrAllowTeddy (grey cc)), (numLiterals <=? 48),
        (has_avx2 (target_info cc) && (numLiterals <=? 96)). }
  split; [now intros ->|].
  split; [intros -> ->; now destruct (allowNoodle (grey cc))|].
  split; [intros -> ->; now destruct (allowNoodle (grey cc))|].
  now destruct (allowNoodle (grey cc)), (fdrAllowTeddy (grey cc)),
    (has_avx2 (target_info cc)).
Qed.


End Properties.

(** * The properties at concrete batches *)

Lemma wf_grey_demo : wf_Grey grey_demo.
Proof. repeat split. Qed.

Lemma wf_ext_demo : wf_Externals ext_demo.
Proof. split; [discriminate | reflexivity]. Qed.

Lemma sizes_agree_ext_demo : sizes_agree ext_demo.
Proof. split; simpl; intros; match goal with H : Ok _ = Ok _ |- _ => now inversion H end. Qed.

(** Two literals against a ceiling of one; six characters against a
    budget of five, each literal within the length ceiling. *)
Lemma hwlmBuild_resource_limits_witness :
  (limitLiteralCount (grey cc_one) < 2 /\
   hwlmBuild ext_demo true [lit_abc; lit_xyz] false cc_one 0 =
   ([], Throw ResourceLimitError)) /\
  (s_length lit_abc <= limitLiteralLength (grey cc_five) /\
   s_length lit_xyz <= limitLiteralLength (grey cc_five) /\
   limitLiteralMatcherChars (grey cc_five) < sum_lengths [lit_abc] + s_length lit_xyz /\
   hwlmBuild ext_demo false [lit_abc; lit_xyz] false cc_five 0 =
   ([], Throw ResourceLimitError)).
Proof.
  split.
  - split; [reflexivity|].
    apply (proj1 (hwlmBuild_resource_limits ext_demo true [lit_abc; lit_xyz]
                    false cc_one 0 ltac:(repeat split))).
    reflexivity.
  - split; [discriminate|]. split; [discriminate|]. split; [reflexivity|].
    apply (proj2 (hwlmBuild_resource_limits ext_demo false [lit_abc; lit_xyz]
                    false cc_five 0 ltac:(repeat split))
                 [lit_abc] lit_xyz []).
    + reflexivity.
    + repeat constructor; discriminate.
    + right. reflexivity.
Defined.

(** The claim as stated fails: a literal over the length ceiling that
    follows a literal with the reserved id does not make the build call
    fail with the resource-limit error. *)
Lemma hwlmBuild_long_after_reserved :
  (exists l, In l [lit_reserved; lit_long] /\
             limitLiteralLength (grey cc_demo) < s_length l) /\
  hwlmBuild ext_demo true [lit_reserved; lit_long] false cc_demo 0 =
  ([], Throw (CompileError "Internal error.")) /\
  hwlmBuild ext_demo false [lit_reserved; lit_long] false cc_demo 0 = ([], Abort) /\
  ~ ((exists l, In l [lit_reserved; lit_long] /\
                limitLiteralLength (grey cc_demo) < s_length l) ->
     snd (hwlmBuild ext_demo true [lit_reserved; lit_long] false cc_demo 0) =
     Throw ResourceLimitError).
Proof.
  assert (Hlong : exists l, In l [lit_reserved; lit_long] /\
                            limitLiteralLength (grey cc_demo) < s_length l).
  { exists lit_long. split; [right; now left | reflexivity]. }
  split; [exact Hlong|]. split; [reflexivity|]. split; [reflexivity|].
  intros Hclaim. specialize (Hclaim Hlong). discriminate Hclaim.
Qed.

Lemma hwlmBuild_reserved_id_witness :
  lit_id lit_reserved = 0xffffffff /\
  hwlmBuild ext_demo true [lit_abc; lit_reserved] false cc_demo 0 =
  ([], Throw (CompileError "Internal error.")) /\
  internal_violation
    (snd (hwlmBuild ext_demo true [lit_abc; lit_reserved] false cc_demo 0)) /\
  snd (hwlmBuild ext_demo true [lit_abc; lit_reserved] false cc_demo 0) <>
  Throw ResourceLimitError.
Proof.
  split; [reflexivity|].
  apply (hwlmBuild_reserved_id ext_demo true [lit_abc; lit_reserved] false cc_demo 0
           [lit_abc] lit_reserved []).
  - repeat split.
  - discriminate.
  - reflexivity.
  - reflexivity.
  - repeat constructor; discriminate.
  - discriminate.
Defined.

(** The claim as stated fails: a batch with the reserved id that is over
    the count ceiling fails with the resource-limit error. *)
Lemma hwlmBuild_reserved_over_count :
  (exists l, In l [lit_abc; lit_reserved] /\ lit_id l = 0xffffffff) /\
  hwlmBuild ext_demo true [lit_abc; lit_reserved] false cc_one 0 =
  ([], Throw ResourceLimitError) /\
  hwlmBuild ext_demo false [lit_abc; lit_reserved] false cc_one 0 =
  ([], Throw ResourceLimitError) /\
  ~ ((exists l, In l [lit_abc; lit_reserved] /\ lit_id l = 0xffffffff) ->
     internal_violation
       (snd (hwlmBuild ext_demo true [lit_abc; lit_reserved] false cc_one 0))).
Proof.
  assert (Hres : exists l, In l [lit_abc; lit_reserved] /\ lit_id l = 0xffffffff).
  { exists lit_reserved. split; [right; now left | reflexivity]. }
  split; [exact Hres|]. split; [reflexivity|]. split; [reflexivity|].
  intros Hclaim. exact (Hclaim Hres).
Qed.

(** The claim as stated fails: a build call the count check rejects
    invokes no builder, not exactly one. *)
Lemma hwlmBuild_rejected_no_builder :
  snd (hwlmBuild_checks true [lit_abc; lit_xyz] cc_one) = Throw ResourceLimitError /\
  builder_calls (fst (hwlmBuild ext_demo true [lit_abc; lit_xyz] false cc_one 0)) = [] /\
  builder_calls (fst (hwlmBuild ext_demo false [lit_abc; lit_xyz] false cc_one 0)) = [] /\
  ~ (exists c,
        builder_calls (fst (hwlmBuild ext_demo true [lit_abc; lit_xyz] false cc_one 0)) =
        [c]).
Proof.
  split; [reflexivity|]. split; [reflexivity|]. split; [reflexivity|].
  intros [c Hc]. discriminate Hc.
Qed.

Lemma hwlmBuild_table_too_large_witness :
  limitLiteralMatcherSize (grey cc_small) < 32 /\
  snd (hwlmBuild ext_demo false [lit_abc] false cc_small 0) = Throw ResourceLimitError /\
  allocations (fst (hwlmBuild ext_demo false [lit_abc] false cc_small 0)) = [].
Proof.
  split; [reflexivity|].
  apply (hwlmBuild_table_too_large ext_demo false [lit_abc] false cc_small 0
           16 32 (mk_bytecode (repeat x00 32) 32)); reflexivity.
Defined.

Lemma hwlmBuild_empty_table_witness :
  snd (hwlmBuild ext_empty false [lit_abc; lit_xyz] false cc_demo 0) = Ok None /\
  allocations (fst (hwlmBuild ext_empty false [lit_abc; lit_xyz] false cc_demo 0)) = [].
Proof.
  apply (proj1 (hwlmBuild_empty_table ext_empty false [lit_abc; lit_xyz] false cc_demo 0
                  eq_refl) 12 0).
  reflexivity.
Defined.

(** The claim as stated fails: a builder that succeeds with a table of
    zero bytes does not make the build call return the null blob. *)
Lemma hwlmBuild_zero_size_table :
  snd (hwlmBuild_checks true [lit_abc] cc_demo) = Ok tt /\
  snd (hwlmBuild_engine ext_zero [lit_abc] false cc_demo) =
  Ok (16, 0, Some (mk_bytecode [] 0)) /\
  snd (hwlmBuild ext_zero true [lit_abc] false cc_demo 0) =
  Ok (Some (mk_bytecode (mk_HWLM 16 []) 64)) /\
  snd (hwlmBuild ext_zero false [lit_abc] false cc_demo 0) = Abort /\
  snd (hwlmBuild ext_zero true [lit_abc] false cc_demo 0) <> Ok None /\
  snd (hwlmBuild ext_zero false [lit_abc] false cc_demo 0) <> Ok None.
Proof. repeat split; discriminate. Qed.

Lemma hwlmSize_round_trip_witness :
  snd (hwlmBuild ext_demo true [lit_abc] false cc_demo 0) =
  Ok (Some (mk_bytecode (mk_HWLM 16 (repeat x00 32)) 96)) /\
  exists engType engSize e,
    snd (hwlmBuild_engine ext_demo [lit_abc] false cc_demo) =
    Ok (engType, engSize, Some e) /\
    engSize = bc_size e /\
    allocations (fst (hwlmBuild ext_demo true [lit_abc] false cc_demo 0)) =
    [EvAlloc 96 64] /\
    96 = ROUNDUP_CL (sizeof_HWLM ext_demo) + engSize /\
    (engSize <> 0 -> hwlmSize ext_demo (mk_HWLM 16 (repeat x00 32)) = 96) /\
    (engSize = 0 -> true = true /\ hwlmSize ext_demo (mk_HWLM 16 (repeat x00 32)) = 0).
Proof.
  split; [reflexivity|].
  apply (hwlmSize_round_trip ext_demo true [lit_abc] false cc_demo 0
           (mk_bytecode (mk_HWLM 16 (repeat x00 32)) 96)
           wf_ext_demo wf_grey_demo sizes_agree_ext_demo).
  reflexivity.
Defined.

(** The claim as stated fails: a build without assertions packages a
    table of zero bytes into a blob allocated with the 64 bytes of the
    aligned header, for which [hwlmSize] returns zero, although each
    size function reports the size its builder reported. *)
Lemma hwlmSize_header_only_blob :
  sizes_agree ext_zero /\
  hwlmBuild ext_zero true [lit_abc] false cc_demo 0 =
  ([EvNoodBuildTable lit_abc; EvAlloc 64 64],
   Ok (Some (mk_bytecode (mk_HWLM 16 []) 64))) /\
  hwlmSize ext_zero (mk_HWLM 16 []) = 0 /\
  ~ (hwlmSize ext_zero (bc_get (mk_bytecode (mk_HWLM 16 []) 64)) =
     bc_size (mk_bytecode (mk_HWLM 16 []) 64)).
Proof.
  split.
  { split; simpl; intros;
      match goal with H : Ok _ = Ok _ |- _ => now inversion H end. }
  split; [reflexivity|]. split; [reflexivity|]. discriminate.
Qed.

Lemma hwlmBuild_within_limits_witness :
  exists b,
    snd (hwlmBuild ext_demo false [lit_abc; lit_xyz] false cc_demo 0) = Ok (Some b) /\
    type (bc_get b) = 12 /\
    bc_size b = ROUNDUP_CL (sizeof_HWLM ext_demo) + 128 /\
    (sizes_agree ext_demo ->
     hwlmSize ext_demo (bc_get b) = bc_size b /\
     ROUNDUP_CL (sizeof_HWLM ext_demo) < hwlmSize ext_demo (bc_get b) /\
     0 < hwlmSize ext_demo (bc_get b)).
Proof.
  apply (hwlmBuild_within_limits ext_demo false [lit_abc; lit_xyz] false cc_demo 0
           12 128 (mk_bytecode (repeat x01 128) 128) wf_ext_demo wf_grey_demo).
  - discriminate.
  - discriminate.
  - repeat constructor; discriminate.
  - discriminate.
  - repeat constructor; discriminate.
  - right. repeat constructor; discriminate.
  - reflexivity.
  - split; [reflexivity | discriminate].
Defined.

(** The claim as stated fails: within all the limits, a batch whose
    builder finds nothing to build yields the null blob, and a batch
    with the reserved id yields the internal error. *)
Lemma hwlmBuild_in_limits_no_blob :
  ([lit_abc; lit_xyz] <> [] /\
   N.of_nat (List.length [lit_abc; lit_xyz]) <= limitLiteralCount (grey cc_demo) /\
   Forall (fun p => s_length p <= limitLiteralLength (grey cc_demo)) [lit_abc; lit_xyz] /\
   sum_lengths [lit_abc; lit_xyz] <= limitLiteralMatcherChars (grey cc_demo) /\
   snd (hwlmBuild_engine ext_empty [lit_abc; lit_xyz] false cc_demo) = Ok (12, 0, None) /\
   0 <= limitLiteralMatcherSize (grey cc_demo) /\
   hwlmBuild ext_empty true [lit_abc; lit_xyz] false cc_demo 0 =
   ([EvFdrBuildTable [lit_abc; lit_xyz] false (mk_target false) grey_demo], Ok None) /\
   hwlmBuild ext_empty false [lit_abc; lit_xyz] false cc_demo 0 =
   ([EvFdrBuildTable [lit_abc; lit_xyz] false (mk_target false) grey_demo], Ok None) /\
   ~ (exists b,
         snd (hwlmBuild ext_empty true [lit_abc; lit_xyz] false cc_demo 0) =
         Ok (Some b) /\
         0 < hwlmSize ext_empty (bc_get b))) /\
  ([lit_reserved] <> [] /\
   N.of_nat (List.length [lit_reserved]) <= limitLiteralCount (grey cc_demo) /\
   Forall (fun p => s_length p <= limitLiteralLength (grey cc_demo)) [lit_reserved] /\
   sum_lengths [lit_reserved] <= limitLiteralMatcherChars (grey cc_demo) /\
   noodBuildTable ext_demo lit_reserved = Ok (Some (mk_bytecode (repeat x00 32) 32)) /\
   32 <= limitLiteralMatcherSize (grey cc_demo) /\
   hwlmBuild ext_demo true [lit_reserved] false cc_demo 0 =
   ([], Throw (CompileError "Internal error.")) /\
   hwlmBuild ext_demo false [lit_reserved] false cc_demo 0 = ([], Abort) /\
   ~ (exists b,
         snd (hwlmBuild ext_demo true [lit_reserved] false cc_demo 0) =
         Ok (Some b) /\
         0 < hwlmSize ext_demo (bc_get b))).
Proof.
  split.
  - split; [discriminate|]. split; [discriminate|].
    split; [repeat constructor; discriminate|].
    split; [discriminate|]. split; [reflexivity|]. split; [discriminate|].
    split; [reflexivity|]. split; [reflexivity|].
    intros [b [Hb _]]. discriminate Hb.
  - split; [discriminate|]. split; [discriminate|].
    split; [repeat constructor; discriminate|].
    split; [discriminate|]. split; [reflexivity|]. split; [discriminate|].
    split; [reflexivity|]. split; [reflexivity|].
    intros [b [Hb _]]. discriminate Hb.
Qed.

Lemma hwlmSize_cases_witness :
  hwlmSize ext_demo (mk_HWLM 16 (repeat x00 32)) = 96 /\
  hwlmSize ext_demo (mk_HWLM 12 []) = 0 /\
  hwlmSize ext_demo (mk_HWLM 7 (repeat x00 32)) = 0.
Proof.
  assert (Htags : HWLM_ENGINE_NOOD ext_demo <> HWLM_ENGINE_FDR ext_demo)
    by discriminate.
  split; [|split].
  - apply (proj1 (proj1 (proj2 (proj2 (proj2
             (hwlmSize_cases ext_demo (mk_HWLM 16 (repeat x00 32)) Htags))))
             eq_refl ltac:(discriminate))).
  - apply (proj1 (proj2 (proj2
             (hwlmSize_cases ext_demo (mk_HWLM 12 []) Htags)))
             eq_refl eq_refl).
  - apply (proj1 (hwlmSize_cases ext_demo (mk_HWLM 7 (repeat x00 32)) Htags));
      discriminate.
Defined.

Lemma hwlmSize_zero_or_above_header_witness :
  hwlmSize ext_demo (mk_HWLM 12 (repeat x01 128)) = 0 \/
  ROUNDUP_CL (sizeof_HWLM ext_demo) < hwlmSize ext_demo (mk_HWLM 12 (repeat x01 128)).
Proof.
  apply (hwlmSize_zero_or_above_header ext_demo (mk_HWLM 12 (repeat x01 128))).
  reflexivity.
Defined.

(** The scenarios of the spec: one literal goes to noodle, two literals
    go to FDR, and the two blobs differ in tag and size. *)
Example hwlmBuild_abc :
  hwlmBuild ext_demo true [lit_abc] false cc_demo 0 =
  ([EvNoodBuildTable lit_abc; EvAlloc 96 64],
   Ok (Some (mk_bytecode (mk_HWLM 16 (repeat x00 32)) 96))).
Proof. reflexivity. Qed.

Example hwlmBuild_abc_xyz :
  hwlmBuild ext_demo true [lit_abc; lit_xyz] false cc_demo 0 =
  ([EvFdrBuildTable [lit_abc; lit_xyz] false (mk_target false) grey_demo;
    EvAlloc 192 64],
   Ok (Some (mk_bytecode (mk_HWLM 12 (repeat x01 128)) 192))).
Proof. reflexivity. Qed.

(** A literal with a supplementary mask goes to FDR. *)
Example hwlmBuild_masked :
  isNoodleable [lit_masked] cc_demo = false /\
  builder_calls (fst (hwlmBuild ext_demo true [lit_masked] false cc_demo 0)) =
  [EvFdrBuildTable [lit_masked] false (mk_target false) grey_demo].
Proof. split; reflexivity. Qed.

(** The claim as stated fails: when the size the engine reports and the
    aligned header wrap [size_t], [hwlmSize] returns a value that is
    neither zero nor above the aligned header. *)
Lemma hwlmSize_below_header :
  hwlmSize_engSize ext_huge (mk_HWLM 16 []) = 2 ^ 64 - 1 /\
  ROUNDUP_CL (sizeof_HWLM ext_huge) = 64 /\
  hwlmSize ext_huge (mk_HWLM 16 []) = 63 /\
  ~ (hwlmSize ext_huge (mk_HWLM 16 []) = 0 \/
     ROUNDUP_CL (sizeof_HWLM ext_huge) < hwlmSize ext_huge (mk_HWLM 16 [])).
Proof.
  split; [reflexivity|]. split; [reflexivity|]. split; [reflexivity|].
  intros [H | H]; discriminate H.
Qed.

(** * Further properties of the build code *)

(** ** The loop of the checks, seen through its outcome *)

Lemma for_each_check_cons (nd : bool) (cc : CompileContext) (t : N)
      (l : hwlmLiteral) (lits : list hwlmLiteral) :
  snd (for_each (check_literal nd cc) t (l :: lits)) =
  match snd (check_literal nd cc t l) with
  | Ok t' => snd (for_each (check_literal nd cc) t' lits)
  | Throw e => Throw e
  | Abort => Abort
  end.
Proof.
  simpl. destruct (check_literal nd cc t l) as [tr [t' | e |]]; simpl;
    try reflexivity.
  now destruct (for_each (check_literal nd cc) t' lits).
Qed.

(** The outcome of one turn of the loop. *)
Lemma check_literal_outcome (nd : bool) (cc : CompileContext) (t : N)
      (lit : hwlmLiteral) :
  snd (check_literal nd cc t lit) =
  if negb nd && (s_length lit =? 0) then Abort
  else if s_length lit >? limitLiteralLength (grey cc)
       then Throw ResourceLimitError
  else if wrap64 (t + s_length lit) >? limitLiteralMatcherChars (grey cc)
       then Throw ResourceLimitError
  else if lit_id lit =? 0xffffffff
       then (if nd then Throw (CompileError "Internal error.") else Abort)
  else Ok (wrap64 (t + s_length lit)).
Proof.
  rewrite check_literal_eq.
  destruct (negb nd && (s_length lit =? 0)); [reflexivity|].
  destruct (limitLiteralLength (grey cc) <? s_length lit); [reflexivity|].
  destruct (limitLiteralMatcherChars (grey cc) <? wrap64 (t + s_length lit));
    [reflexivity|].
  destruct (lit_id lit =? 0xffffffff); [now destruct nd | reflexivity].
Qed.

(** A loop that runs to its end has seen only literals within the length
    ceiling and free of the reserved id, and its [total_chars] is the sum
    of the lengths, within the budget. *)
Lemma for_each_check_Ok_inv (nd : bool) (cc : CompileContext)
      (lits : list hwlmLiteral) (t total : N) :
  wf_Grey (grey cc) ->
  t <= limitLiteralMatcherChars (grey cc) ->
  snd (for_each (check_literal nd cc) t lits) = Ok total ->
  total = t + sum_lengths lits /\
  total <= limitLiteralMatcherChars (grey cc) /\
  Forall (fun p => s_length p <= limitLiteralLength (grey cc)) lits /\
  Forall (fun p => lit_id p <> 0xffffffff) lits /\
  (nd = false -> Forall (fun p => s_length p <> 0) lits).
Proof.
  intros Hwf. revert t.
  induction lits as [|l lits IH]; intros t Ht Hrun.
  - simpl in Hrun. injection Hrun as <-. simpl. rewrite N.add_0_r.
    repeat split; try constructor; assumption.
  - rewrite for_each_check_cons, check_literal_outcome in Hrun.
    destruct (negb nd && (s_length l =? 0)) eqn:Hassert; [discriminate|].
    destruct (N.ltb_spec (limitLiteralLength (grey cc)) (s_length l)) as [|Hlen];
      [discriminate|].
    rewrite (total_no_wrap _ _ _ Hwf Ht Hlen) in Hrun.
    destruct (N.ltb_spec (limitLiteralMatcherChars (grey cc)) (t + s_length l))
      as [|Hsum]; [discriminate|].
    destruct (N.eqb_spec (lit_id l) 0xffffffff) as [|Hid];
      [destruct nd; discriminate|].
    destruct (IH _ Hsum Hrun) as (Htot & Hle & Hlens & Hids & Hne).
    simpl. repeat split.
    + lia.
    + exact Hle.
    + now constructor.
    + now constructor.
    + intros ->. constructor; [|now apply Hne].
      simpl in Hassert. now apply N.eqb_neq.
Qed.

Lemma everyoneHasGroups_true_inv (lits : list hwlmLiteral) :
  everyoneHasGroups lits = true -> Forall (fun l => lit_groups l <> 0) lits.
Proof.
  induction lits as [|l lits IH]; simpl; intros H; [constructor|].
  destruct (N.eqb_spec (lit_groups l) 0) as [|Hg]; [discriminate|].
  constructor; [exact Hg | now apply IH].
Qed.

(** What the checks have established when they pass. *)
Lemma hwlmBuild_checks_Ok_inv (nd : bool) (lits : list hwlmLiteral)
      (cc : CompileContext) (u : unit) :
  wf_Grey (grey cc) ->
  snd (hwlmBuild_checks nd lits cc) = Ok u ->
  N.of_nat (List.length lits) <= limitLiteralCount (grey cc) /\
  Forall (fun p => s_length p <= limitLiteralLength (grey cc)) lits /\
  sum_lengths lits <= limitLiteralMatcherChars (grey cc) /\
  Forall (fun p => lit_id p <> 0xffffffff) lits /\
  (nd = false -> lits <> [] /\ Forall valid_literal lits).
Proof.
  intros Hwf Hrun. rewrite hwlmBuild_checks_eq in Hrun.
  destruct (negb nd && (N.of_nat (List.length lits) =? 0)) eqn:Hempty;
    [discriminate|].
  destruct (N.ltb_spec (limitLiteralCount (grey cc)) (N.of_nat (List.length lits)))
    as [|Hcount]; [discriminate|].
  destruct (snd (for_each (check_literal nd cc) 0 lits)) as [total | e |] eqn:Hloop;
    try discriminate.
  destruct (negb nd && negb (everyoneHasGroups lits)) eqn:Hgroups; [discriminate|].
  destruct (for_each_check_Ok_inv nd cc lits 0 total Hwf (N.le_0_l _) Hloop)
    as (Htot & Hle & Hlens & Hids & Hne).
  split; [exact Hcount|]. split; [exact Hlens|]. split; [lia|].
  split; [exact Hids|]. intros ->. split.
  - simpl in Hempty. intros ->. discriminate.
  - simpl in Hgroups. apply negb_false_iff in Hgroups.
    pose proof (everyoneHasGroups_true_inv _ Hgroups) as Hg.
    specialize (Hne eq_refl). clear - Hg Hne.
    induction lits as [|l lits IH]; [constructor|].
    inversion Hg; inversion Hne; subst.
    constructor; [now split | now apply IH].
Qed.

(** When the checks do not pass, the build call is their failure. *)
Lemma hwlmBuild_checks_fail (E : Externals) (nd : bool) (lits : list hwlmLiteral)
      (make_small : bool) (cc : CompileContext) (expected_groups : N) :
  (forall u, snd (hwlmBuild_checks nd lits cc) <> Ok u) ->
  fst (hwlmBuild E nd lits make_small cc expected_groups) = [] /\
  forall r, snd (hwlmBuild E nd lits make_small cc expected_groups) <> Ok r.
Proof.
  intros Hfail. rewrite hwlmBuild_eq.
  destruct (snd (hwlmBuild_checks nd lits cc)) as [u | e |].
  - now destruct (Hfail u).
  - split; [reflexivity | discriminate].
  - split; [reflexivity | discriminate].
Qed.

(** X1.  A builder is invoked only on a batch the checks have passed: its
    count is within the count ceiling, every pattern within the length
    ceiling, the sum of the lengths within the budget, no id is the
    reserved one, and, with assertions compiled in, the batch is not
    empty and every literal has a pattern and a group. *)
Theorem hwlmBuild_builder_only_after_checks (E : Externals) (nd : bool)
        (lits : list hwlmLiteral) (make_small : bool) (cc : CompileContext)
        (expected_groups : N) :
  wf_Grey (grey cc) ->
  builder_calls (fst (hwlmBuild E nd lits make_small cc expected_groups)) <> [] ->
  N.of_nat (List.length lits) <= limitLiteralCount (grey cc) /\
  Forall (fun p => s_length p <= limitLiteralLength (grey cc)) lits /\
  sum_lengths lits <= limitLiteralMatcherChars (grey cc) /\
  Forall (fun p => lit_id p <> 0xffffffff) lits /\
  (nd = false -> lits <> [] /\ Forall valid_literal lits).
Proof.
  intros Hwf Hcalled.
  destruct (snd (hwlmBuild_checks nd lits cc)) as [u | e |] eqn:Hchecks.
  - now apply (hwlmBuild_checks_Ok_inv nd lits cc u).
  - destruct (hwlmBuild_checks_fail E nd lits make_small cc expected_groups) as [Htr _].
    { rewrite Hchecks. discriminate. }
    rewrite Htr in Hcalled. now destruct Hcalled.
  - destruct (hwlmBuild_checks_fail E nd lits make_small cc expected_groups) as [Htr _].
    { rewrite Hchecks. discriminate. }
    rewrite Htr in Hcalled. now destruct Hcalled.
Qed.

(** X2.  [everyoneHasGroups] holds exactly of the batches in which no
    literal has a zero group mask; it holds of the empty batch. *)
Theorem everyoneHasGroups_iff (lits : list hwlmLiteral) :
  everyoneHasGroups lits = true <-> Forall (fun l => lit_groups l <> 0) lits.
Proof.
  split; [apply everyoneHasGroups_true_inv|].
  induction 1 as [|l lits Hg _ IH]; simpl; [reflexivity|].
  apply N.eqb_neq in Hg. now rewrite Hg.
Qed.

(** X3.  With assertions compiled in, a batch that is empty, or holds a
    literal with an empty pattern or a zero group mask, never reaches a
    builder: the trace of the build call is empty and the call does not
    return. *)
Theorem hwlmBuild_asserted_batch (E : Externals) (lits : list hwlmLiteral)
        (make_small : bool) (cc : CompileContext) (expected_groups : N) :
  wf_Grey (grey cc) ->
  lits = [] \/ (exists l, In l lits /\ (s_length l = 0 \/ lit_groups l = 0)) ->
  fst (hwlmBuild E false lits make_small cc expected_groups) = [] /\
  forall r, snd (hwlmBuild E false lits make_small cc expected_groups) <> Ok r.
Proof.
  intros Hwf Hbad. apply hwlmBuild_checks_fail.
  intros u Hchecks.
  destruct (hwlmBuild_checks_Ok_inv false lits cc u Hwf Hchecks)
    as (_ & _ & _ & _ & Hvalid).
  destruct (Hvalid eq_refl) as [Hne Hall].
  destruct Hbad as [-> | (l & Hin & Hl)]; [now apply Hne|].
  rewrite Forall_forall in Hall. destruct (Hall l Hin) as [Hs Hg].
  destruct Hl; contradiction.
Qed.

(** ** The whole build call *)

(** X4.  The trace of a build call has one of three shapes: it is empty
    and the call has failed; or it is the call of one builder and no
    blob is returned; or it is the call of one builder followed by one
    allocation, aligned to 64, of exactly the size of the blob that is
    returned.  So a blob is allocated exactly when it is returned. *)
Theorem hwlmBuild_trace_shape (E : Externals) (nd : bool)
        (lits : list hwlmLiteral) (make_small : bool) (cc : CompileContext)
        (expected_groups : N) :
  (fst (hwlmBuild E nd lits make_small cc expected_groups) = [] /\
   forall r, snd (hwlmBuild E nd lits make_small cc expected_groups) <> Ok r) \/
  (exists c, is_builder_call c = true /\
             fst (hwlmBuild E nd lits make_small cc expected_groups) = [c] /\
             forall b, snd (hwlmBuild E nd lits make_small cc expected_groups) <>
                       Ok (Some b)) \/
  (exists c b, is_builder_call c = true /\
               fst (hwlmBuild E nd lits make_small cc expected_groups) =
               [c; EvAlloc (bc_size b) 64] /\
               snd (hwlmBuild E nd lits make_small cc expected_groups) = Ok (Some b)).
Proof.
  rewrite hwlmBuild_eq.
  destruct (snd (hwlmBuild_checks nd lits cc)) as [u | e |];
    [| left; split; [reflexivity | discriminate] ..].
  assert (Hpack : forall c engType engSize eng,
             is_builder_call c = true ->
             (exists c0, is_builder_call c0 = true /\
                [c] ++ fst (hwlmBuild_package E nd cc engType engSize eng) = [c0] /\
                forall b, snd (hwlmBuild_package E nd cc engType engSize eng) <>
                          Ok (Some b)) \/
             (exists c0 b, is_builder_call c0 = true /\
                [c] ++ fst (hwlmBuild_package E nd cc engType engSize eng) =
                [c0; EvAlloc (bc_size b) 64] /\
                snd (hwlmBuild_package E nd cc engType engSize eng) = Ok (Some b))).
  { intros c engType engSize eng Hc. rewrite hwlmBuild_package_eq.
    destruct eng as [e|];
      [| left; exists c; split; [exact Hc | split; [reflexivity | discriminate]]].
    destruct (negb nd && (engSize =? 0));
      [left; exists c; split; [exact Hc | split; [reflexivity | discriminate]]|].
    destruct (limitLiteralMatcherSize (grey cc) <? engSize);
      [left; exists c; split; [exact Hc | split; [reflexivity | discriminate]]|].
    right.
    exists c, (mk_bytecode (mk_HWLM engType (memcpy (bc_get e) engSize))
                           (wrap64 (ROUNDUP_CL (sizeof_HWLM E) + engSize))).
    split; [exact Hc|]. split; reflexivity. }
  rewrite hwlmBuild_engine_eq.
  destruct (isNoodleable lits cc).
  - destruct (front lits) as [lit|];
      [| left; split; [reflexivity | discriminate]].
    destruct (noodBuildTable E lit) as [noodle | e |].
    + right. rewrite bind_Ok. cbn [fst snd]. now apply Hpack.
    + right. left. exists (EvNoodBuildTable lit).
      split; [reflexivity | split; [reflexivity | discriminate]].
    + right. left. exists (EvNoodBuildTable lit).
      split; [reflexivity | split; [reflexivity | discriminate]].
  - destruct (fdrBuildTable E lits make_small (target_info cc) (grey cc))
      as [fdr | e |].
    + right. rewrite bind_Ok. cbn [fst snd]. now apply Hpack.
    + right. left. eexists.
      split; [|split; [reflexivity | discriminate]]. reflexivity.
    + right. left. eexists.
      split; [|split; [reflexivity | discriminate]]. reflexivity.
Qed.

(** X5.  A blob that a build call returns carries the tag of the engine
    [isNoodleable] has chosen, holds the bytes of the table that
    engine's builder returned, and that table is within the
    compiled-size ceiling. *)
Theorem hwlmBuild_blob_shape (E : Externals) (nd : bool)
        (lits : list hwlmLiteral) (make_small : bool) (cc : CompileContext)
        (expected_groups : N) (b : bytecode HWLM) :
  snd (hwlmBuild E nd lits make_small cc expected_groups) = Ok (Some b) ->
  exists e,
    HWLM_DATA (bc_get b) = memcpy (bc_get e) (bc_size e) /\
    bc_size e <= limitLiteralMatcherSize (grey cc) /\
    bc_size b = wrap64 (ROUNDUP_CL (sizeof_HWLM E) + bc_size e) /\
    ((isNoodleable lits cc = true /\ type (bc_get b) = HWLM_ENGINE_NOOD E /\
      exists lit, lits = [lit] /\ noodBuildTable E lit = Ok (Some e)) \/
     (isNoodleable lits cc = false /\ type (bc_get b) = HWLM_ENGINE_FDR E /\
      fdrBuildTable E lits make_small (target_info cc) (grey cc) = Ok (Some e))).
Proof.
  intros Hrun. rewrite hwlmBuild_eq in Hrun.
  destruct (snd (hwlmBuild_checks nd lits cc)) as [u | err |]; try discriminate.
  destruct (hwlmBuild_engine E lits make_small cc)
    as [tr [[[engType engSize] eng] | err |]] eqn:Hengine; try discriminate.
  rewrite bind_Ok in Hrun. cbn [fst snd] in Hrun.
  assert (Hengine' : snd (hwlmBuild_engine E lits make_small cc) =
                     Ok (engType, engSize, eng)) by now rewrite Hengine.
  destruct (hwlmBuild_engine_Ok _ _ _ _ _ _ _ Hengine') as [Hsize Hcall].
  rewrite hwlmBuild_package_eq in Hrun.
  destruct eng as [e|]; [|discriminate].
  destruct (negb nd && (engSize =? 0)); [discriminate|].
  destruct (N.ltb_spec (limitLiteralMatcherSize (grey cc)) engSize) as [|Hlim];
    [discriminate|].
  cbn [snd] in Hrun. injection Hrun as <-. subst engSize.
  exists e. cbn [bc_get bc_size HWLM_DATA type].
  split; [reflexivity|]. split; [exact Hlim|]. split; [reflexivity|].
  destruct Hcall as [(lit & Hl & Hn & Ht & Hb & _) | (Hn & Ht & Hb & _)].
  - left. split; [exact Hn|]. split; [exact Ht|]. now exists lit.
  - right. now split.
Qed.

(** X6.  A failure of the invoked builder is the failure of the build
    call, unchanged: the trace is the one builder call and nothing is
    allocated. *)
Theorem hwlmBuild_builder_failure (E : Externals) (nd : bool)
        (lits : list hwlmLiteral) (make_small : bool) (cc : CompileContext)
        (expected_groups : N) (u : unit) (e : error) :
  snd (hwlmBuild_checks nd lits cc) = Ok u ->
  snd (hwlmBuild_engine E lits make_small cc) = Throw e ->
  snd (hwlmBuild E nd lits make_small cc expected_groups) = Throw e /\
  allocations (fst (hwlmBuild E nd lits make_small cc expected_groups)) = [] /\
  exists c, is_builder_call c = true /\
            fst (hwlmBuild E nd lits make_small cc expected_groups) = [c].
Proof.
  intros Hchecks Hengine. rewrite hwlmBuild_eq, Hchecks.
  rewrite hwlmBuild_engine_eq in Hengine |- *.
  destruct (isNoodleable lits cc).
  - destruct (front lits) as [lit|]; [|discriminate].
    destruct (noodBuildTable E lit) as [noodle | e' |]; try discriminate.
    cbn [snd] in Hengine. injection Hengine as ->.
    split; [reflexivity|]. split; [reflexivity|].
    now exists (EvNoodBuildTable lit).
  - destruct (fdrBuildTable E lits make_small (target_info cc) (grey cc))
      as [fdr | e' |]; try discriminate.
    cbn [snd] in Hengine. injection Hengine as ->.
    split; [reflexivity|]. split; [reflexivity|].
    eexists. split; [|reflexivity]. reflexivity.
Qed.

(** X7.  In a build without assertions the empty batch passes the checks
    and goes to the FDR builder, whatever the configuration; in a build
    with assertions it fails the first assertion and nothing is
    called. *)
Theorem hwlmBuild_empty_batch (E : Externals) (make_small : bool)
        (cc : CompileContext) (expected_groups : N) :
  builder_calls (fst (hwlmBuild E true [] make_small cc expected_groups)) =
  [EvFdrBuildTable [] make_small (target_info cc) (grey cc)] /\
  hwlmBuild E false [] make_small cc expected_groups = ([], Abort).
Proof.
  split; [|reflexivity].
  rewrite hwlmBuild_eq, hwlmBuild_checks_eq. cbn [negb andb List.length].
  change (N.of_nat 0) with 0.
  destruct (N.ltb_spec (limitLiteralCount (grey cc)) 0) as [Hlt|_]; [lia|].
  cbn [for_each ret snd].
  rewrite hwlmBuild_engine_eq.
  assert (Hn : isNoodleable [] cc = false).
  { unfold isNoodleable. now destruct (allowNoodle (grey cc)). }
  rewrite Hn.
  destruct (fdrBuildTable E [] make_small (target_info cc) (grey cc))
    as [fdr | e |]; try reflexivity.
  rewrite bind_Ok. cbn [fst snd]. unfold builder_calls.
  rewrite filter_app.
  pose proof (hwlmBuild_package_calls E true cc (HWLM_ENGINE_FDR E)
                (match fdr with Some b => bc_size b | None => 0 end) fdr) as Hp.
  unfold builder_calls in Hp. rewrite Hp. reflexivity.
Qed.

(** ** Assertions only observe *)

Lemma for_each_check_debug (cc : CompileContext) (lits : list hwlmLiteral) (t : N) :
  snd (for_each (check_literal false cc) t lits) <> Abort ->
  snd (for_each (check_literal false cc) t lits) =
  snd (for_each (check_literal true cc) t lits).
Proof.
  revert t. induction lits as [|l lits IH]; intros t; [reflexivity|].
  rewrite !for_each_check_cons, !check_literal_outcome. cbn [negb andb].
  destruct (s_length l =? 0); [now intros []|].
  destruct (limitLiteralLength (grey cc) <? s_length l); [reflexivity|].
  destruct (limitLiteralMatcherChars (grey cc) <? wrap64 (t + s_length l));
    [reflexivity|].
  destruct (lit_id l =? 0xffffffff); [now intros []|].
  apply IH.
Qed.

Lemma hwlmBuild_checks_debug (lits : list hwlmLiteral) (cc : CompileContext) :
  snd (hwlmBuild_checks false lits cc) <> Abort ->
  snd (hwlmBuild_checks false lits cc) = snd (hwlmBuild_checks true lits cc).
Proof.
  rewrite !hwlmBuild_checks_eq. cbn [negb andb].
  destruct (N.of_nat (List.length lits) =? 0); [now intros []|].
  destruct (limitLiteralCount (grey cc) <? N.of_nat (List.length lits));
    [reflexivity|].
  pose proof (for_each_check_debug cc lits 0) as Hloop.
  destruct (snd (for_each (check_literal false cc) 0 lits)) as [total | e |].
  - rewrite <- Hloop by discriminate.
    destruct (everyoneHasGroups lits); [reflexivity | now intros []].
  - now rewrite <- Hloop by discriminate.
  - now intros [].
Qed.

Lemma hwlmBuild_package_debug (E : Externals) (cc : CompileContext)
      (engType engSize : N) (eng : bytecode_ptr (list byte)) :
  snd (hwlmBuild_package E false cc engType engSize eng) <> Abort ->
  hwlmBuild_package E true cc engType engSize eng =
  hwlmBuild_package E false cc engType engSize eng.
Proof.
  rewrite !hwlmBuild_package_eq. destruct eng as [e|]; [|reflexivity].
  cbn [negb andb]. destruct (engSize =? 0); [now intros []|reflexivity].
Qed.

(** X8.  Assertions only observe: on every input on which the build with
    assertions does not stop at a failed assertion, the build without
    them makes the same calls and returns the same result. *)
Theorem hwlmBuild_NDEBUG_agrees (E : Externals) (lits : list hwlmLiteral)
        (make_small : bool) (cc : CompileContext) (expected_groups : N) :
  snd (hwlmBuild E false lits make_small cc expected_groups) <> Abort ->
  hwlmBuild E true lits make_small cc expected_groups =
  hwlmBuild E false lits make_small cc expected_groups.
Proof.
  rewrite !hwlmBuild_eq.
  pose proof (hwlmBuild_checks_debug lits cc) as Hchecks.
  destruct (snd (hwlmBuild_checks false lits cc)) as [u | e |].
  - rewrite <- Hchecks by discriminate.
    destruct (hwlmBuild_engine E lits make_small cc)
      as [tr [[[engType engSize] eng] | e |]]; try reflexivity.
    rewrite !bind_Ok. cbn [fst snd]. intros Hrun.
    now rewrite (hwlmBuild_package_debug E cc engType engSize eng Hrun).
  - now rewrite <- Hchecks by discriminate.
  - now intros [].
Qed.

(** ** The checks under other limits and longer batches *)

Lemma for_each_check_raise (nd : bool) (cc cc' : CompileContext)
      (lits : list hwlmLiteral) (t total : N) :
  limitLiteralLength (grey cc) <= limitLiteralLength (grey cc') ->
  limitLiteralMatcherChars (grey cc) <= limitLiteralMatcherChars (grey cc') ->
  snd (for_each (check_literal nd cc) t lits) = Ok total ->
  snd (for_each (check_literal nd cc') t lits) = Ok total.
Proof.
  intros Hlen Hchars. revert t.
  induction lits as [|l lits IH]; intros t; [trivial|].
  rewrite !for_each_check_cons, !check_literal_outcome.
  destruct (negb nd && (s_length l =? 0)); [discriminate|].
  destruct (N.ltb_spec (limitLiteralLength (grey cc)) (s_length l)); [discriminate|].
  destruct (N.ltb_spec (limitLiteralLength (grey cc')) (s_length l)); [lia|].
  destruct (N.ltb_spec (limitLiteralMatcherChars (grey cc)) (wrap64 (t + s_length l)));
    [discriminate|].
  destruct (N.ltb_spec (limitLiteralMatcherChars (grey cc')) (wrap64 (t + s_length l)));
    [lia|].
  destruct (lit_id l =? 0xffffffff); [destruct nd; discriminate|].
  apply IH.
Qed.

(** X9.  Raising the count ceiling, the length ceiling and the aggregate
    budget never turns a batch the checks pass into one they reject. *)
Theorem hwlmBuild_checks_raise_limits (nd : bool) (lits : list hwlmLiteral)
        (cc cc' : CompileContext) (u : unit) :
  limitLiteralCount (grey cc) <= limitLiteralCount (grey cc') ->
  limitLiteralLength (grey cc) <= limitLiteralLength (grey cc') ->
  limitLiteralMatcherChars (grey cc) <= limitLiteralMatcherChars (grey cc') ->
  snd (hwlmBuild_checks nd lits cc) = Ok u ->
  snd (hwlmBuild_checks nd lits cc') = Ok u.
Proof.
  intros Hcount Hlen Hchars. rewrite !hwlmBuild_checks_eq.
  destruct (negb nd && (N.of_nat (List.length lits) =? 0)); [discriminate|].
  destruct (N.ltb_spec (limitLiteralCount (grey cc)) (N.of_nat (List.length lits)));
    [discriminate|].
  destruct (N.ltb_spec (limitLiteralCount (grey cc')) (N.of_nat (List.length lits)));
    [lia|].
  destruct (snd (for_each (check_literal nd cc) 0 lits)) as [total | e |] eqn:Hloop;
    try discriminate.
  now rewrite (for_each_check_raise nd cc cc' lits 0 total Hlen Hchars Hloop).
Qed.

Lemma for_each_check_Throw_app (nd : bool) (cc : CompileContext)
      (lits more : list hwlmLiteral) (t : N) (e : error) :
  snd (for_each (check_literal nd cc) t lits) = Throw e ->
  snd (for_each (check_literal nd cc) t (lits ++ more)) = Throw e.
Proof.
  revert t. induction lits as [|l lits IH]; intros t; [discriminate|].
  rewrite <- app_comm_cons, !for_each_check_cons.
  destruct (snd (check_literal nd cc t l)) as [t' | e' |]; [apply IH | trivial..].
Qed.

(** X10.  A batch the checks reject with an error stays rejected however
    many literals are appended to it: the longer batch is rejected with
    the same error, or with the resource-limit error of the count
    check. *)
Theorem hwlmBuild_checks_append (nd : bool) (lits more : list hwlmLiteral)
        (cc : CompileContext) (e : error) :
  snd (hwlmBuild_checks nd lits cc) = Throw e ->
  snd (hwlmBuild_checks nd (lits ++ more) cc) = Throw e \/
  snd (hwlmBuild_checks nd (lits ++ more) cc) = Throw ResourceLimitError.
Proof.
  rewrite !hwlmBuild_checks_eq, length_app, Nat2N.inj_add.
  destruct (N.eqb_spec (N.of_nat (List.length lits)) 0) as [Hz | Hnz].
  - destruct nd; [|discriminate]. cbn [negb andb].
    destruct lits; [|discriminate]. cbn [List.length app].
    change (N.of_nat 0) with 0. rewrite N.add_0_l.
    destruct (N.ltb_spec (limitLiteralCount (grey cc)) 0); [lia|].
    discriminate.
  - rewrite andb_false_r.
    assert (Hnz' : N.of_nat (List.length lits) + N.of_nat (List.length more) <> 0) by lia.
    apply N.eqb_neq in Hnz'. rewrite Hnz', andb_false_r.
    destruct (N.ltb_spec (limitLiteralCount (grey cc)) (N.of_nat (List.length lits))).
    + intros [= <-].
      destruct (N.ltb_spec (limitLiteralCount (grey cc))
                  (N.of_nat (List.length lits) + N.of_nat (List.length more)));
        [now left | lia].
    + destruct (snd (for_each (check_literal nd cc) 0 lits)) as [total | e' |]
        eqn:Hloop.
      * destruct (negb nd && negb (everyoneHasGroups lits)); discriminate.
      * intros [= ->].
        destruct (N.ltb_spec (limitLiteralCount (grey cc))
                    (N.of_nat (List.length lits) + N.of_nat (List.length more)));
          [now right|].
        left. now rewrite (for_each_check_Throw_app nd cc lits more 0 e Hloop).
      * discriminate.
Qed.

(** ** The flood heuristic and the engine selector *)

(** X11.  Whenever the selector chooses noodle for a batch, the flood
    heuristic for the size of that batch is [NO_LIMIT]. *)
Theorem hwlmFloodProneSuffixLen_noodle (lits : list hwlmLiteral)
        (cc : CompileContext) :
  isNoodleable lits cc = true ->
  hwlmFloodProneSuffixLen (N.of_nat (List.length lits)) cc = NO_LIMIT.
Proof.
  intros Hn. apply isNoodleable_spec in Hn. destruct Hn as (Hallow & lit & -> & _).
  unfold hwlmFloodProneSuffixLen. now rewrite Hallow.
Qed.

(** X12.  The flood heuristic reads nothing of the configuration but
    [allowNoodle]: Teddy, AVX2 and the limits do not change its
    value. *)
Theorem hwlmFloodProneSuffixLen_flags (numLiterals : N) (cc cc' : CompileContext) :
  allowNoodle (grey cc) = allowNoodle (grey cc') ->
  hwlmFloodProneSuffixLen numLiterals cc = hwlmFloodProneSuffixLen numLiterals cc'.
Proof.
  intros Hallow. unfold hwlmFloodProneSuffixLen. rewrite Hallow.
  destruct (allowNoodle (grey cc') && (numLiterals <=? 1)); [reflexivity|].
  now destruct (fdrAllowTeddy (grey cc)), (fdrAllowTeddy (grey cc')),
    (numLiterals <=? 48), (has_avx2 (target_info cc) && (numLiterals <=? 96)),
    (has_avx2 (target_info cc') && (numLiterals <=? 96)).
Qed.

(** X13.  More literals never raise the flood heuristic, and it is never
    below 3. *)
Theorem hwlmFloodProneSuffixLen_antitone (n m : N) (cc : CompileContext) :
  n <= m ->
  hwlmFloodProneSuffixLen m cc <= hwlmFloodProneSuffixLen n cc /\
  3 <= hwlmFloodProneSuffixLen m cc.
Proof.
  intros Hnm.
  assert (Hval : forall k, hwlmFloodProneSuffixLen k cc =
                           if allowNoodle (grey cc) && (k <=? 1) then NO_LIMIT else 3).
  { intros k. unfold hwlmFloodProneSuffixLen.
    destruct (allowNoodle (grey cc) && (k <=? 1)); [reflexivity|].
    now destruct (fdrAllowTeddy (grey cc)), (k <=? 48),
      (has_avx2 (target_info cc) && (k <=? 96)). }
  rewrite !Hval. rewrite NO_LIMIT_value.
  destruct (allowNoodle (grey cc)); cbn [andb].
  - destruct (N.leb_spec m 1), (N.leb_spec n 1); split; try lia;
      try (now apply N.leb_le); discriminate.
  - split; [apply N.le_refl | apply N.le_refl].
Qed.

(** X14.  For a batch that goes to noodle the build call reads neither
    [make_small] nor [expected_groups]. *)
Theorem hwlmBuild_noodle_ignores_hints (E : Externals) (nd : bool)
        (lits : list hwlmLiteral) (cc : CompileContext)
        (make_small make_small' : bool) (expected_groups expected_groups' : N) :
  isNoodleable lits cc = true ->
  hwlmBuild E nd lits make_small cc expected_groups =
  hwlmBuild E nd lits make_small' cc expected_groups'.
Proof.
  intros Hn. rewrite !hwlmBuild_eq, !hwlmBuild_engine_eq, Hn. reflexivity.
Qed.

(** ** The errors of the build call *)

Lemma for_each_check_Throw_inv (nd : bool) (cc : CompileContext)
      (lits : list hwlmLiteral) (t : N) (e : error) :
  snd (for_each (check_literal nd cc) t lits) = Throw e ->
  e = ResourceLimitError \/
  (e = CompileError "Internal error." /\ nd = true /\
   exists l, In l lits /\ lit_id l = 0xffffffff).
Proof.
  revert t. induction lits as [|l lits IH]; intros t; [discriminate|].
  rewrite for_each_check_cons, check_literal_outcome.
  destruct (negb nd && (s_length l =? 0)); [discriminate|].
  destruct (limitLiteralLength (grey cc) <? s_length l);
    [intros [= <-]; now left|].
  destruct (limitLiteralMatcherChars (grey cc) <? wrap64 (t + s_length l));
    [intros [= <-]; now left|].
  destruct (N.eqb_spec (lit_id l) 0xffffffff) as [Hid|].
  - destruct nd; [|discriminate]. intros [= <-]. right.
    split; [reflexivity|]. split; [reflexivity|].
    exists l. split; [now left | exact Hid].
  - intros Hrest. destruct (IH _ Hrest) as [-> | (-> & -> & l' & Hin & Hid')];
      [now left|].
    right. split; [reflexivity|]. split; [reflexivity|].
    exists l'. split; [now right | exact Hid'].
Qed.

(** X15.  A build call raises two errors of its own and no other: the
    resource-limit error, and the compile error "Internal error.", the
    latter only in a build without assertions and only for a batch that
    holds the reserved id.  Any other error is the error the invoked
    builder has thrown, after the checks have passed. *)
Theorem hwlmBuild_errors (E : Externals) (nd : bool)
        (lits : list hwlmLiteral) (make_small : bool) (cc : CompileContext)
        (expected_groups : N) (e : error) :
  snd (hwlmBuild E nd lits make_small cc expected_groups) = Throw e ->
  e = ResourceLimitError \/
  (e = CompileError "Internal error." /\ nd = true /\
   exists l, In l lits /\ lit_id l = 0xffffffff) \/
  (snd (hwlmBuild_checks nd lits cc) = Ok tt /\
   snd (hwlmBuild_engine E lits make_small cc) = Throw e).
Proof.
  rewrite hwlmBuild_eq.
  destruct (snd (hwlmBuild_checks nd lits cc)) as [[] | e' |] eqn:Hchecks;
    try discriminate.
  - destruct (hwlmBuild_engine E lits make_small cc)
      as [tr [[[engType engSize] eng] | e' |]]; try discriminate.
    + rewrite bind_Ok. cbn [fst snd]. rewrite hwlmBuild_package_eq.
      destruct eng as [b|]; [|discriminate].
      destruct (negb nd && (engSize =? 0)); [discriminate|].
      destruct (limitLiteralMatcherSize (grey cc) <? engSize); [|discriminate].
      intros [= <-]. now left.
    + intros [= <-]. right. right. now split.
  - intros [= <-]. rewrite hwlmBuild_checks_eq in Hchecks.
    destruct (negb nd && (N.of_nat (List.length lits) =? 0)); [discriminate|].
    destruct (limitLiteralCount (grey cc) <? N.of_nat (List.length lits));
      [injection Hchecks as <-; now left|].
    destruct (snd (for_each (check_literal nd cc) 0 lits)) as [total | e |] eqn:Hloop.
    + destruct (negb nd && negb (everyoneHasGroups lits)); discriminate.
    + injection Hchecks as <-.
      destruct (for_each_check_Throw_inv nd cc lits 0 e Hloop) as [-> | H];
        [now left | right; now left].
    + discriminate.
Qed.

(** X16.  A build call returns the null blob only when the checks have
    passed and the invoked builder has returned no table. *)
Theorem hwlmBuild_null_blob (E : Externals) (nd : bool)
        (lits : list hwlmLiteral) (make_small : bool) (cc : CompileContext)
        (expected_groups : N) :
  snd (hwlmBuild E nd lits make_small cc expected_groups) = Ok None ->
  snd (hwlmBuild_checks nd lits cc) = Ok tt /\
  (exists engType, snd (hwlmBuild_engine E lits make_small cc) =
                   Ok (engType, 0, None)) /\
  allocations (fst (hwlmBuild E nd lits make_small cc expected_groups)) = [].
Proof.
  intros Hrun. rewrite hwlmBuild_eq in Hrun |- *.
  destruct (snd (hwlmBuild_checks nd lits cc)) as [[] | e' |]; try discriminate.
  split; [reflexivity|].
  destruct (hwlmBuild_engine E lits make_small cc)
    as [tr [[[engType engSize] eng] | e' |]] eqn:Hengine; try discriminate.
  assert (Hengine' : snd (hwlmBuild_engine E lits make_small cc) =
                     Ok (engType, engSize, eng)) by now rewrite Hengine.
  destruct (hwlmBuild_engine_Ok _ _ _ _ _ _ _ Hengine') as [Hsize Hcall].
  rewrite bind_Ok in Hrun |- *. cbn [fst snd] in Hrun |- *.
  rewrite hwlmBuild_package_eq in Hrun |- *.
  destruct eng as [b|].
  - destruct (negb nd && (engSize =? 0)); [discriminate|].
    destruct (limitLiteralMatcherSize (grey cc) <? engSize); discriminate.
  - subst engSize. split; [now exists engType|].
    cbn [fst]. rewrite app_nil_r. rewrite Hengine in Hcall. cbn [fst] in Hcall.
    destruct Hcall as [(lit & _ & _ & _ & _ & ->) | (_ & _ & _ & ->)]; reflexivity.
Qed.

(** ** The further properties at concrete batches *)

Lemma hwlmBuild_builder_only_after_checks_witness :
  builder_calls (fst (hwlmBuild ext_demo false [lit_abc; lit_xyz] false cc_demo 0)) <> [] /\
  N.of_nat (List.length [lit_abc; lit_xyz]) <= limitLiteralCount (grey cc_demo) /\
  Forall (fun p => s_length p <= limitLiteralLength (grey cc_demo)) [lit_abc; lit_xyz] /\
  sum_lengths [lit_abc; lit_xyz] <= limitLiteralMatcherChars (grey cc_demo) /\
  Forall (fun p => lit_id p <> 0xffffffff) [lit_abc; lit_xyz] /\
  (false = false -> [lit_abc; lit_xyz] <> [] /\ Forall valid_literal [lit_abc; lit_xyz]).
Proof.
  split; [discriminate|].
  apply (hwlmBuild_builder_only_after_checks ext_demo false [lit_abc; lit_xyz]
           false cc_demo 0 wf_grey_demo).
  discriminate.
Defined.

Lemma hwlmBuild_asserted_batch_witness :
  lit_groups lit_nogroups = 0 /\
  fst (hwlmBuild ext_demo false [lit_abc; lit_nogroups] false cc_demo 0) = [] /\
  forall r, snd (hwlmBuild ext_demo false [lit_abc; lit_nogroups] false cc_demo 0) <> Ok r.
Proof.
  split; [reflexivity|].
  apply (hwlmBuild_asserted_batch ext_demo [lit_abc; lit_nogroups] false cc_demo 0
           wf_grey_demo).
  right. exists lit_nogroups. split; [right; now left | now right].
Defined.

Lemma hwlmBuild_blob_shape_witness :
  exists e,
    HWLM_DATA (mk_HWLM 16 (repeat x00 32)) = memcpy (bc_get e) (bc_size e) /\
    bc_size e <= limitLiteralMatcherSize (grey cc_demo) /\
    96 = wrap64 (ROUNDUP_CL (sizeof_HWLM ext_demo) + bc_size e) /\
    ((isNoodleable [lit_abc] cc_demo = true /\ 16 = HWLM_ENGINE_NOOD ext_demo /\
      exists lit, [lit_abc] = [lit] /\ noodBuildTable ext_demo lit = Ok (Some e)) \/
     (isNoodleable [lit_abc] cc_demo = false /\ 16 = HWLM_ENGINE_FDR ext_demo /\
      fdrBuildTable ext_demo [lit_abc] false (target_info cc_demo) (grey cc_demo) =
      Ok (Some e))).
Proof.
  apply (hwlmBuild_blob_shape ext_demo true [lit_abc] false cc_demo 0
           (mk_bytecode (mk_HWLM 16 (repeat x00 32)) 96)).
  reflexivity.
Defined.

Lemma hwlmBuild_builder_failure_witness :
  snd (hwlmBuild ext_throw false [lit_abc; lit_xyz] false cc_demo 0) =
  Throw (CompileError "fdr") /\
  allocations (fst (hwlmBuild ext_throw false [lit_abc; lit_xyz] false cc_demo 0)) = [] /\
  exists c, is_builder_call c = true /\
            fst (hwlmBuild ext_throw false [lit_abc; lit_xyz] false cc_demo 0) = [c].
Proof.
  apply (hwlmBuild_builder_failure ext_throw false [lit_abc; lit_xyz] false cc_demo 0 tt);
    reflexivity.
Defined.

Lemma hwlmBuild_NDEBUG_agrees_witness :
  hwlmBuild ext_demo true [lit_abc; lit_xyz] true cc_demo 0 =
  hwlmBuild ext_demo false [lit_abc; lit_xyz] true cc_demo 0.
Proof.
  apply (hwlmBuild_NDEBUG_agrees ext_demo [lit_abc; lit_xyz] true cc_demo 0).
  discriminate.
Defined.

Lemma hwlmBuild_checks_raise_limits_witness :
  snd (hwlmBuild_checks false [lit_abc] cc_five) = Ok tt /\
  snd (hwlmBuild_checks false [lit_abc] cc_demo) = Ok tt.
Proof.
  split; [reflexivity|].
  apply (hwlmBuild_checks_raise_limits false [lit_abc] cc_five cc_demo tt);
    try discriminate.
  reflexivity.
Defined.

Lemma hwlmBuild_checks_append_witness :
  snd (hwlmBuild_checks true ([lit_reserved] ++ [lit_abc; lit_xyz]) cc_demo) =
  Throw (CompileError "Internal error.") \/
  snd (hwlmBuild_checks true ([lit_reserved] ++ [lit_abc; lit_xyz]) cc_demo) =
  Throw ResourceLimitError.
Proof.
  apply (hwlmBuild_checks_append true [lit_reserved] [lit_abc; lit_xyz] cc_demo).
  reflexivity.
Defined.

Lemma hwlmFloodProneSuffixLen_noodle_witness :
  hwlmFloodProneSuffixLen (N.of_nat (List.length [lit_abc])) cc_demo = NO_LIMIT.
Proof.
  apply (hwlmFloodProneSuffixLen_noodle [lit_abc] cc_demo). reflexivity.
Defined.

Lemma hwlmFloodProneSuffixLen_flags_witness :
  hwlmFloodProneSuffixLen 50 cc_demo = hwlmFloodProneSuffixLen 50 cc_avx2.
Proof.
  apply (hwlmFloodProneSuffixLen_flags 50 cc_demo cc_avx2). reflexivity.
Defined.

Lemma hwlmFloodProneSuffixLen_antitone_witness :
  hwlmFloodProneSuffixLen 2 cc_demo <= hwlmFloodProneSuffixLen 1 cc_demo /\
  3 <= hwlmFloodProneSuffixLen 2 cc_demo.
Proof.
  apply (hwlmFloodProneSuffixLen_antitone 1 2 cc_demo). discriminate.
Defined.

Lemma hwlmBuild_noodle_ignores_hints_witness :
  hwlmBuild ext_demo false [lit_abc] true cc_demo 0 =
  hwlmBuild ext_demo false [lit_abc] false cc_demo 1.
Proof.
  apply (hwlmBuild_noodle_ignores_hints ext_demo false [lit_abc] cc_demo true false 0 1).
  reflexivity.
Defined.

Lemma hwlmBuild_errors_witness :
  CompileError "Internal error." = ResourceLimitError \/
  (CompileError "Internal error." = CompileError "Internal error." /\ true = true /\
   exists l, In l [lit_abc; lit_reserved] /\ lit_id l = 0xffffffff) \/
  (snd (hwlmBuild_checks true [lit_abc; lit_reserved] cc_demo) = Ok tt /\
   snd (hwlmBuild_engine ext_demo [lit_abc; lit_reserved] false cc_demo) =
   Throw (CompileError "Internal error.")).
Proof.
  apply (hwlmBuild_errors ext_demo true [lit_abc; lit_reserved] false cc_demo 0).
  reflexivity.
Defined.

Lemma hwlmBuild_null_blob_witness :
  snd (hwlmBuild_checks false [lit_abc] cc_demo) = Ok tt /\
  (exists engType, snd (hwlmBuild_engine ext_empty [lit_abc] false cc_demo) =
                   Ok (engType, 0, None)) /\
  allocations (fst (hwlmBuild ext_empty false [lit_abc] false cc_demo 0)) = [].
Proof.
  apply (hwlmBuild_null_blob ext_empty false [lit_abc] false cc_demo 0).
  reflexivity.
Defined.
